(** * project-manager: configuration store, launcher and flows

    A shallow embedding of the TypeScript sources of the project launcher
    and the properties of its specification that are about them:
    - [types.ts]: the schemas and the built-in catalog of tools;
    - [config.ts], in the version that keeps the documents in
      [~/.project-manager]: loading and saving the four documents, the
      recents;
    - [lib/launcher.ts]: [launchTool];
    - [flows/launch.ts]: [sortProjects], [quickLaunch], and [launchFlow]
      from the point where the project and the workspace are chosen;
    - [flows/manage.ts]: [manageWorkspaces].

    Conventions of the embedding:
    - JavaScript strings are [string]; [toLowerCase] is modelled on the
      ASCII letters, other characters are left as they are;
    - a file holds text, and the text is represented by what [JSON.parse]
      makes of it: either a syntax error or a JSON value; [JSON.stringify]
      produces the text that parses back to the value it was given;
    - effectful code runs in a monad over the world (the file system, the
      array of projects in memory and the trace of what the program
      printed, asked and spawned) with exceptions, so that [try]/[catch]
      is written as in the source;
    - the answers of the user to the prompts and the behaviour of the
      external collaborators (glob engine, process spawning) are inputs;
    - [spawn] reports a failure in one of two ways, as the runtime does:
      the call throws, or it returns a child and the failure comes later
      as an ['error'] event of the child; an event that nobody listens
      to is thrown from the event loop at the next [await], outside
      every [try] of the program, and ends the process;
    - [DEFAULT_TOOLS] is the array as [types.ts] defines it: the part of
      the program that could change that array in place
      ([flows/tools.ts]) is not embedded. *)

From Stdlib Require Import Ascii String ZArith.
From stdpp Require Import gmap strings list fin_maps pretty sorting.

Set Warnings "-register-all".
Open Scope string_scope.
Open Scope list_scope.

(** ** JavaScript strings *)

Definition lower_ascii (c : ascii) : ascii :=
  let n := N_of_ascii c in
  if ((65 <=? n)%N && (n <=? 90)%N)%bool then ascii_of_N (n + 32) else c.

(** [s.toLowerCase()] *)
Fixpoint toLowerCase (s : string) : string :=
  match s with
  | EmptyString => EmptyString
  | String c r => String (lower_ascii c) (toLowerCase r)
  end.

(** [s.startsWith(sub)] *)
Fixpoint startsWith (s sub : string) : bool :=
  match sub, s with
  | EmptyString, _ => true
  | String _ _, EmptyString => false
  | String a sub', String b s' => Ascii.eqb a b && startsWith s' sub'
  end.

(** [s.includes(sub)]: [sub] occurs in [s] at some position *)
Fixpoint includes (s sub : string) : bool :=
  startsWith s sub ||
  match s with
  | EmptyString => false
  | String _ r => includes r sub
  end.

(** [`"${s}"`]: [s] between double quotes *)
Definition quoted (s : string) : string :=
  String (ascii_of_nat 34) s +:+ String (ascii_of_nat 34) EmptyString.

(** The truth value of a string in a condition: the empty string is falsy. *)
Definition truthy_string (s : string) : bool := negb (String.eqb s "").

(** The truth value of [o] where [o] is a string or [undefined]. *)
Definition truthy_ostring (o : option string) : bool :=
  match o with Some s => truthy_string s | None => false end.

(** The truth value of [o] where [o] is a boolean or [undefined]. *)
Definition truthy_obool (o : option bool) : bool :=
  match o with Some b => b | None => false end.

(** ** JSON values

    An object is the list of its properties; in a value that [JSON.parse]
    returns the keys are distinct. Of a number only the fact that it is a
    number matters here. *)

Inductive json : Type :=
| JNull
| JBool (b : bool)
| JNum (n : Z)
| JStr (s : string)
| JArr (items : list json)
| JObj (fields : list (string * json)).

(** [o[k]] on a parsed object: [None] stands for [undefined]. *)
Fixpoint field (k : string) (fields : list (string * json)) : option json :=
  match fields with
  | [] => None
  | (k', v) :: rest => if String.eqb k k' then Some v else field k rest
  end.

(** ** The schema combinators of zod that [types.ts] uses

    A schema reads a value that may be [undefined] (a missing key) and
    either yields the parsed output or fails ([None]); [parse] turns the
    failure into a thrown [ZodError]. *)

Definition Schema (A : Type) : Type := option json → option A.

Definition z_string : Schema string :=
  λ v, match v with Some (JStr s) => Some s | _ => None end.

Definition z_boolean : Schema bool :=
  λ v, match v with Some (JBool b) => Some b | _ => None end.

Fixpoint parse_items {A} (s : Schema A) (items : list json) : option (list A) :=
  match items with
  | [] => Some []
  | x :: rest =>
      match s (Some x), parse_items s rest with
      | Some a, Some r => Some (a :: r)
      | _, _ => None
      end
  end.

Definition z_array {A} (s : Schema A) : Schema (list A) :=
  λ v, match v with Some (JArr items) => parse_items s items | _ => None end.

(** [s.optional()]: [undefined] is accepted and stays [undefined]. *)
Definition z_optional {A} (s : Schema A) : Schema (option A) :=
  λ v, match v with None => Some None | Some _ => Some <$> s v end.

(** [s.default(d)]: [undefined] is replaced by [d]. *)
Definition z_default {A} (s : Schema A) (d : A) : Schema A :=
  λ v, match v with None => Some d | Some _ => s v end.

(** ** types.ts *)

Record Workspace := mkWorkspace { ws_name : string; ws_path : string }.

Record Project := mkProject {
  name : string;
  path : string;
  workspaces : list Workspace;
  command : option string;
}.

Record Settings := mkSettings { defaultCodePath : string; defaultTool : string }.

(** A tool as the program handles it. The fields up to
    [projectFilePatterns] are those of [ToolSchema]. [requiresAdmin] is
    the property that [lib/launcher.ts] reads: [ToolSchema] does not
    declare it (it declares [supportsAdmin]), so it is [undefined]
    ([None]) on every tool that went through the schema. *)
Record Tool := mkTool {
  id : string;
  tool_name : string;
  executable : string;
  versionArgs : option string;
  updateCommand : option string;
  enabled : bool;
  launchInTerminal : bool;
  supportsAdmin : bool;
  launchArgs : option string;
  projectFilePatterns : option (list string);
  requiresAdmin : option bool;
}.

Definition WorkspaceSchema : Schema Workspace :=
  λ v, match v with
       | Some (JObj o) =>
           n ← z_string (field "name" o);
           p ← z_string (field "path" o);
           Some (mkWorkspace n p)
       | _ => None
       end.

Definition ProjectSchema : Schema Project :=
  λ v, match v with
       | Some (JObj o) =>
           n ← z_string (field "name" o);
           p ← z_string (field "path" o);
           w ← z_default (z_array WorkspaceSchema) [mkWorkspace "Root" "."]
                 (field "workspaces" o);
           c ← z_optional z_string (field "command" o);
           Some (mkProject n p w c)
       | _ => None
       end.

Definition ConfigSchema : Schema (list Project) := z_array ProjectSchema.

(** Default projects (empty - user adds their own) *)
Definition getDefaultProjects : list Project := [].

Definition SettingsSchema : Schema Settings :=
  λ v, match v with
       | Some (JObj o) =>
           p ← z_default z_string "D:/code/git" (field "defaultCodePath" o);
           t ← z_default z_string "claude" (field "defaultTool" o);
           Some (mkSettings p t)
       | _ => None
       end.

Definition DEFAULT_SETTINGS : Settings := mkSettings "D:/code/git" "claude".

Definition ToolSchema : Schema Tool :=
  λ v, match v with
       | Some (JObj o) =>
           i ← z_string (field "id" o);
           n ← z_string (field "name" o);
           e ← z_string (field "executable" o);
           va ← z_optional z_string (field "versionArgs" o);
           uc ← z_optional z_string (field "updateCommand" o);
           en ← z_default z_boolean true (field "enabled" o);
           lt ← z_default z_boolean false (field "launchInTerminal" o);
           sa ← z_default z_boolean false (field "supportsAdmin" o);
           la ← z_optional z_string (field "launchArgs" o);
           pf ← z_optional (z_array z_string) (field "projectFilePatterns" o);
           Some (mkTool i n e va uc en lt sa la pf None)
       | _ => None
       end.

Definition ToolsConfigSchema : Schema (list Tool) := z_array ToolSchema.

(** An entry of [DEFAULT_TOOLS]: the object literal with the keys it
    gives. [sa] is [None] where the literal leaves [supportsAdmin] out; the
    record then holds [false], the truth value of the missing property. *)
Definition default_tool (i n e : string) (va uc : option string)
    (en lt : bool) (sa : option bool) (la : option string)
    (pf : option (list string)) : Tool :=
  mkTool i n e va uc en lt (default false sa) la pf None.

Definition DEFAULT_TOOLS : list Tool := [
  default_tool "claude" "Claude Code" "claude" (Some "--version")
    (Some "claude update") true true (Some true) None None;
  default_tool "gemini" "Gemini CLI" "gemini" (Some "--version")
    (Some "bun update --global @google/gemini-cli") true true (Some true) None None;
  default_tool "antigravity" "Antigravity" "antigravity" None None
    true false None None (Some ["*.code-workspace"]);
  default_tool "vscode" "VS Code" "code" None None
    true false None None (Some ["*.code-workspace"]);
  default_tool "vscode-insiders" "VS Code Insiders" "code-insiders" None None
    false false None None (Some ["*.code-workspace"]);
  default_tool "vs" "Visual Studio" "devenv" None None
    false false None None (Some ["*.slnx"; "*.sln"]);
  default_tool "rider" "Rider" "rider" None None
    true false None None (Some ["*.slnx"; "*.sln"]);
  default_tool "idea" "IntelliJ IDEA" "idea" None None true false None None None;
  default_tool "webstorm" "WebStorm" "webstorm" None None true false None None None;
  default_tool "pycharm" "PyCharm" "pycharm" None None false false None None None;
  default_tool "goland" "GoLand" "goland" None None false false None None None;
  default_tool "clion" "CLion" "clion" None None false false None None None;
  default_tool "phpstorm" "PhpStorm" "phpstorm" None None false false None None None;
  default_tool "rubymine" "RubyMine" "rubymine" None None false false None None None;
  default_tool "datagrip" "DataGrip" "datagrip" None None true false None None None;
  default_tool "fleet" "Fleet" "fleet" None None false false None None None;
  default_tool "aqua" "Aqua" "aqua" None None false false None None None;
  default_tool "rustrover" "RustRover" "rustrover" None None false false None None None;
  default_tool "terminal" "Windows Terminal" "wt" None None
    true false None (Some "-d") None;
  default_tool "explorer" "Explorer" "explorer" None None true false None None None
].

(** ** The world: files, and the trace of what the program did *)

(** The text of a file, as [JSON.parse] sees it. *)
Inductive Text : Type :=
| Malformed (raw : string)
| JsonText (v : json).

Record FS := mkFS {
  dirs : gset string;
  files : gmap string Text;
}.

Inductive Error : Type := mkError (kind message : string).

(** [`${e}`] *)
Definition error_string (e : Error) : string :=
  match e with mkError k m => k +:+ ": " +:+ m end.

Record SpawnOptions := mkSpawnOptions {
  cwd : string;
  detached : bool;
  stdio : string;
  windowsHide : bool;
}.

Record GlobOptions := mkGlobOptions {
  glob_cwd : string;
  absolute : bool;
  onlyFiles : bool;
  deep : nat;
}.

(** What the program prints, asks and starts, in the order it does.
    Colours ([picocolors]) are left out of the messages. *)
Inductive Event : Type :=
| LogInfo (msg : string)
| LogSuccess (msg : string)
| LogWarn (msg : string)
| LogError (msg : string)
| Note (msg title : string)
| Sleep (ms : nat)
| Spawn (command : string) (args : list string) (opts : SpawnOptions)
| Unref
| AskText (message : string)
| AskSelect (message : string) (options : list string)
| AskConfirm (message : string)
| AskMultiselectTools (message : string) (options : list Tool).

(** [mem] is the array of projects that [main] loads and hands to the
    flows, which change it in place. *)
Record World := mkWorld {
  fs : FS;
  mem : list Project;
  trace : list Event;
}.

(** How a computation ends: with a value, with an exception that the
    enclosing [try] blocks of the program can catch, or with an exception
    that is raised outside of them all (by the event loop of the runtime),
    which ends the process. *)
Inductive Exc (A : Type) : Type :=
| Ok (a : A)
| Throw (e : Error)
| Uncaught (e : Error).
Arguments Ok {A} a.
Arguments Throw {A} e.
Arguments Uncaught {A} e.

(** What [spawn] of [node:child_process] does with a command. The call
    either creates the child, or throws (arguments that it refuses), or
    returns a child that never ran: a command that is not found or may
    not be run ([ENOENT], [EACCES]) is reported by the runtime later, as
    an ['error'] event of the child that the call has returned. *)
Inductive SpawnResult : Type :=
| Started
| SpawnThrows (e : Error)
| ErrorEvent (e : Error).

(** The external collaborators: the home directory of the user, the glob
    engine ([fast-glob]) and the creation of child processes
    ([child_process.spawn]). *)
Record Env := mkEnv {
  homedir : string;
  fg : list string → GlobOptions → Exc (list string);
  spawn : string → list string → SpawnOptions → SpawnResult;
}.

(** ** A state and exception monad for the effectful code *)

Definition M (A : Type) : Type := World → Exc A * World.

#[global] Instance M_ret : MRet M := λ A a w, (Ok a, w).

#[global] Instance M_bind : MBind M := λ A B f m w,
  match m w with
  | (Ok a, w') => f a w'
  | (Throw e, w') => (Throw e, w')
  | (Uncaught e, w') => (Uncaught e, w')
  end.

Definition throw {A} (e : Error) : M A := λ w, (Throw e, w).
Definition uncaught {A} (e : Error) : M A := λ w, (Uncaught e, w).

(** [try { body } catch (e) { handler e }] *)
Definition try_catch {A} (body : M A) (handler : Error → M A) : M A := λ w,
  match body w with
  | (Ok a, w') => (Ok a, w')
  | (Throw e, w') => handler e w'
  | (Uncaught e, w') => (Uncaught e, w')
  end.

(** An ['error'] event that the runtime has queued for a child process,
    if any, is emitted when the program next gives the control back to
    the event loop, at an [await]. The program registers no listener for
    it, so the emitter throws the error, from the event loop: no [catch]
    of the program sees it, and the process ends. *)
Definition Queued : Type := option Error.

Definition deliver (queued : Queued) : M unit :=
  match queued with
  | Some e => uncaught e
  | None => mret ()
  end.

Definition emit (e : Event) : M unit := λ w,
  (Ok (), mkWorld (fs w) (mem w) (trace w ++ [e])).

Definition get_fs : M FS := λ w, (Ok (fs w), w).
Definition put_fs (f : FS) : M unit := λ w, (Ok (), mkWorld f (mem w) (trace w)).

Definition get_mem : M (list Project) := λ w, (Ok (mem w), w).
Definition put_mem (ps : list Project) : M unit := λ w,
  (Ok (), mkWorld (fs w) ps (trace w)).

Fixpoint for_each {A} (l : list A) (body : A → M unit) : M unit :=
  match l with
  | [] => mret ()
  | x :: rest => body x;; for_each rest body
  end.

(** ** node:path and node:fs *)

Definition join (a b : string) : string := a +:+ "/" +:+ b.

(** The part of a path before its last separator, if it has one. *)
Fixpoint dirname_aux (p : string) : option string :=
  match p with
  | EmptyString => None
  | String c r =>
      match dirname_aux r with
      | Some d => Some (String c d)
      | None => if Ascii.eqb c "/" then Some EmptyString else None
      end
  end.

Definition dirname (p : string) : string := default "." (dirname_aux p).

(** The directories above a path: what is before each of its separators. *)
Fixpoint ancestors_aux (pre p : string) : list string :=
  match p with
  | EmptyString => []
  | String c r =>
      (if Ascii.eqb c "/" then [pre] else []) ++
      ancestors_aux (pre +:+ String c EmptyString) r
  end.

Definition ancestors (p : string) : list string := ancestors_aux "" p.

Definition is_dir (p : string) (f : FS) : bool := bool_decide (p ∈ dirs f).
Definition is_file (p : string) (f : FS) : bool :=
  match files f !! p with Some _ => true | None => false end.

Definition existsSync (p : string) : M bool :=
  f ← get_fs; mret (is_dir p f || is_file p f).

(** [mkdirSync(p, { recursive: true })] *)
Definition mkdirSync_recursive (p : string) : M unit :=
  f ← get_fs;
  put_fs (mkFS (dirs f ∪ list_to_set (p :: ancestors p)) (files f)).

(** [readFileSync(p, "utf-8")]: throws unless [p] is a file. *)
Definition readFileSync (p : string) : M Text :=
  f ← get_fs;
  match files f !! p with
  | Some t => mret t
  | None =>
      throw (mkError "Error" (if is_dir p f then "EISDIR" else "ENOENT"))
  end.

(** [writeFileSync(p, t)]: creates or overwrites the file [p]; throws when
    the directory of [p] does not exist or [p] is itself a directory. *)
Definition writeFileSync (p : string) (t : Text) : M unit :=
  f ← get_fs;
  if is_dir (dirname p) f && negb (is_dir p f)
  then put_fs (mkFS (dirs f) (<[p := t]> (files f)))
  else throw (mkError "Error" (if is_dir p f then "EISDIR" else "ENOENT")).

(** ** JSON.parse, JSON.stringify and [schema.parse] *)

Definition JSON_parse (t : Text) : M json :=
  match t with
  | JsonText v => mret v
  | Malformed _ => throw (mkError "SyntaxError" "Unexpected token")
  end.

Definition JSON_stringify (v : json) : Text := JsonText v.

(** [schema.parse(data)] *)
Definition parse {A} (s : Schema A) (data : json) : M A :=
  match s (Some data) with
  | Some a => mret a
  | None => throw (mkError "ZodError" "invalid input")
  end.

(** The JSON value of the typed data, as [JSON.stringify] walks it: a key
    whose value is [undefined] is left out. *)
Definition opt_field {A} (k : string) (f : A → json) (o : option A)
    : list (string * json) :=
  match o with Some a => [(k, f a)] | None => [] end.

Definition Workspace_to_json (w : Workspace) : json :=
  JObj [("name", JStr (ws_name w)); ("path", JStr (ws_path w))].

Definition Project_to_json (p : Project) : json :=
  JObj ([("name", JStr (name p)); ("path", JStr (path p));
         ("workspaces", JArr (Workspace_to_json <$> workspaces p))] ++
        opt_field "command" JStr (command p)).

Definition Tool_to_json (t : Tool) : json :=
  JObj ([("id", JStr (id t)); ("name", JStr (tool_name t));
         ("executable", JStr (executable t))] ++
        opt_field "versionArgs" JStr (versionArgs t) ++
        opt_field "updateCommand" JStr (updateCommand t) ++
        [("enabled", JBool (enabled t));
         ("launchInTerminal", JBool (launchInTerminal t));
         ("supportsAdmin", JBool (supportsAdmin t))] ++
        opt_field "launchArgs" JStr (launchArgs t) ++
        opt_field "projectFilePatterns" (λ l, JArr (JStr <$> l))
          (projectFilePatterns t) ++
        opt_field "requiresAdmin" JBool (requiresAdmin t)).

Definition Settings_to_json (s : Settings) : json :=
  JObj [("defaultCodePath", JStr (defaultCodePath s));
        ("defaultTool", JStr (defaultTool s))].

(** ** config.ts *)

Section Program.

Context (env : Env).

(** Config directory in user's home folder *)
Definition CONFIG_DIR : string := join (homedir env) ".project-manager".
Definition CONFIG_PATH : string := join CONFIG_DIR "projects.json".
Definition TOOLS_PATH : string := join CONFIG_DIR "tools.json".
Definition RECENTS_PATH : string := join CONFIG_DIR "recents.json".
Definition SETTINGS_PATH : string := join CONFIG_DIR "settings.json".

(** Ensure config directory exists *)
Definition ensureConfigDir : M unit :=
  ex ← existsSync CONFIG_DIR;
  if negb ex then mkdirSync_recursive CONFIG_DIR else mret ().

Definition loadProjects : M (list Project) :=
  ex ← existsSync CONFIG_PATH;
  if negb ex then mret getDefaultProjects
  else
    try_catch
      (text ← readFileSync CONFIG_PATH;
       data ← JSON_parse text;
       projects ← parse ConfigSchema data;
       mret (if (0 <? length projects)%nat then projects else getDefaultProjects))
      (λ e,
         emit (LogError ("Error loading projects.json: " +:+ error_string e));;
         mret getDefaultProjects).

(** Recent projects tracking. The result is what [JSON.parse] returns:
    no schema is applied to it. *)
Definition loadRecents : M json :=
  ex ← existsSync RECENTS_PATH;
  if negb ex then mret (JArr [])
  else
    try_catch
      (text ← readFileSync RECENTS_PATH;
       JSON_parse text)
      (λ _, mret (JArr [])).

(** [r !== projectName] where [r] is a JSON value and [projectName] a string *)
Definition strict_neq_string (r : json) (s : string) : bool :=
  match r with JStr t => negb (String.eqb t s) | _ => true end.

Definition addRecent (projectName : string) : M unit :=
  ensureConfigDir;;
  loaded ← loadRecents;
  match loaded with
  | JArr items =>
      let recents := filter (λ r, strict_neq_string r projectName = true) items in
      let recents := JStr projectName :: recents in (* Add to front *)
      let trimmed := take 10 recents in (* Keep max 10 *)
      writeFileSync RECENTS_PATH (JSON_stringify (JArr trimmed))
  | _ => throw (mkError "TypeError" "loadRecents(...).filter is not a function")
  end.

Definition saveProjects (projects : list Project) : M unit :=
  ensureConfigDir;;
  writeFileSync CONFIG_PATH (JSON_stringify (JArr (Project_to_json <$> projects))).

Definition loadTools : M (list Tool) :=
  ex ← existsSync TOOLS_PATH;
  if negb ex then mret DEFAULT_TOOLS
  else
    try_catch
      (text ← readFileSync TOOLS_PATH;
       data ← JSON_parse text;
       tools ← parse ToolsConfigSchema data;
       mret (if (0 <? length tools)%nat then tools else DEFAULT_TOOLS))
      (λ e,
         emit (LogError ("Error loading tools.json: " +:+ error_string e));;
         mret DEFAULT_TOOLS).

Definition saveTools (tools : list Tool) : M unit :=
  ensureConfigDir;;
  writeFileSync TOOLS_PATH (JSON_stringify (JArr (Tool_to_json <$> tools))).

Definition loadSettings : M Settings :=
  ex ← existsSync SETTINGS_PATH;
  if negb ex then mret DEFAULT_SETTINGS
  else
    try_catch
      (text ← readFileSync SETTINGS_PATH;
       data ← JSON_parse text;
       parse SettingsSchema data)
      (λ _, mret DEFAULT_SETTINGS).

Definition saveSettings (settings : Settings) : M unit :=
  ensureConfigDir;;
  writeFileSync SETTINGS_PATH (JSON_stringify (Settings_to_json settings)).

(** ** lib/launcher.ts *)

(** Find a project file matching the given patterns in the workspace path.
    Returns the first match found, or null if none found. The glob engine
    answers with the files or throws; the third way a computation can end
    is passed on as it is. *)
Definition findProjectFile (workspacePath : string) (patterns : list string)
    : M (option string) :=
  match fg env patterns (mkGlobOptions workspacePath true true 1) with
  | Ok found => mret (head found)
  | Throw e => throw e
  | Uncaught e => uncaught e
  end.

(** Spawn a detached process that continues after parent exits. The
    function of the source returns nothing; the result here is the
    ['error'] event that the runtime has queued for the child, which the
    next [await] of the caller delivers. *)
Definition spawnDetached (cmd : string) (args : list string) (dir : string)
    : M Queued :=
  let opts := mkSpawnOptions dir true "ignore" true in
  emit (Spawn cmd args opts);;
  match spawn env cmd args opts with
  | Started => emit Unref;; mret None
  | SpawnThrows e => throw e
  | ErrorEvent e => emit Unref;; mret (Some e)
  end.

(** Lines 40-47 of [launchTool]: the folder, or the project file found in
    it. *)
Definition resolveTarget (tool : Tool) (workspacePath : string) : M string :=
  match projectFilePatterns tool with
  | Some patterns =>
      if (0 <? length patterns)%nat then
        projectFile ← findProjectFile workspacePath patterns;
        if truthy_ostring projectFile then
          let found := default "" projectFile in
          emit (LogInfo ("Found project file: " +:+ found));;
          mret found
        else mret workspacePath
      else mret workspacePath
  | None => mret workspacePath
  end.

(** Lines 49-76 of [launchTool]: the process that is started for the
    tool. *)
Definition dispatch (tool : Tool) (workspacePath targetPath : string) : M Queued :=
  if launchInTerminal tool then
    (* Tools that need to run inside a terminal (Claude, Gemini, etc.) *)
    if truthy_obool (requiresAdmin tool) then
      (* Use gsudo for admin elevation *)
      spawnDetached "gsudo"
        ["wt"; "-d"; workspacePath; "pwsh"; "-NoExit"; "-Command"; executable tool]
        workspacePath
    else
      (* Normal terminal without admin *)
      spawnDetached "wt"
        ["-d"; workspacePath; "pwsh"; "-NoExit"; "-Command"; executable tool]
        workspacePath
  else if String.eqb (id tool) "explorer" then
    spawnDetached "explorer" [workspacePath] workspacePath
  else if String.eqb (id tool) "terminal" then
    spawnDetached "wt" ["-d"; workspacePath] workspacePath
  else if String.eqb (id tool) "gitbash" then
    spawnDetached "git-bash" ["--cd=" +:+ workspacePath] workspacePath
  else
    (* IDEs and editors - spawn directly *)
    let args := ((if truthy_ostring (launchArgs tool)
                  then [default "" (launchArgs tool)] else []) ++ [targetPath])%list in
    spawnDetached (executable tool) args workspacePath.

Definition launchTool (tool : Tool) (workspacePath : string) : M unit :=
  emit (LogInfo ("Launching " +:+ tool_name tool +:+ "..."));;
  try_catch
    (targetPath ← resolveTarget tool workspacePath;
     queued ← dispatch tool workspacePath targetPath;
     (* Small pause to let user see the message *)
     emit (Sleep 500);;
     deliver queued;;
     emit (LogSuccess (tool_name tool +:+ " launched")))
    (λ e,
       emit (LogError ("Failed to launch " +:+ tool_name tool +:+ ": " +:+
                       error_string e));;
       (* Fallback for terminal-based tools *)
       queued ←
         (if launchInTerminal tool then
            try_catch
              (emit (LogWarn "Trying fallback launch...");;
               spawnDetached "wt" ["-d"; workspacePath; "pwsh"; "-NoExit"]
                 workspacePath)
              (λ err2,
                 emit (LogError ("Fallback failed: " +:+ error_string err2));;
                 mret None)
          else mret None);
       emit (AskText "Press Enter to continue...");;
       deliver queued).

(** ** flows/launch.ts *)

(** [names.join(", ")] *)
Fixpoint join_with (sep : string) (l : list string) : string :=
  match l with
  | [] => ""
  | [x] => x
  | x :: rest => x +:+ sep +:+ join_with sep rest
  end.

(** Lines 142-171 of [launchFlow]: what it does once the project and the
    workspace folder are chosen. [answer] is what the user answers to the
    multiselect: [None] when cancelled, else the positions ticked in the
    list of options. *)
Definition launchFlow_launch (selectedProject : Project)
    (workspacePath workspaceName : string) (answer : option (list nat))
    : M unit :=
  (* Get enabled tools for launcher *)
  loaded ← loadTools;
  let tools := filter (λ t, enabled t = true) loaded in
  if (length tools =? 0)%nat then
    emit (Note "No tools enabled. Go to Tools & Updates → Manage Tools to enable some."
            "Warning")
  else
    emit (AskMultiselectTools
            ("Open " +:+ name selectedProject +:+ " (" +:+ workspaceName +:+ ") in...")
            tools);;
    match answer with
    | None => mret ()
    | Some ticked =>
        let selectedTools := omap (λ i, tools !! i) ticked in
        (* Track as recent *)
        addRecent (name selectedProject);;
        (* Launch all selected tools *)
        for_each selectedTools (λ tool, launchTool tool workspacePath)
    end.

(** Find project by name (case insensitive, partial match) *)
Definition quickLaunch_project (projects : list Project) (projectQuery : string)
    : option Project :=
  List.find
    (λ p, String.eqb (toLowerCase (name p)) (toLowerCase projectQuery) ||
          includes (toLowerCase (name p)) (toLowerCase projectQuery))
    projects.

(** The tool that [quickLaunch] picks among the enabled [tools]: [Some None]
    is the [undefined] that [tools[0]] gives on an empty list, [None] is
    "Tool not found". *)
Definition quickLaunch_tool (tools : list Tool) (toolId : option string)
    : option (option Tool) :=
  if truthy_ostring toolId then
    let wanted := default "" toolId in
    match List.find
            (λ t, String.eqb (id t) wanted ||
                  includes (toLowerCase (tool_name t)) (toLowerCase wanted))
            tools with
    | Some t => Some (Some t)
    | None => None
    end
  else
    (* Use first tool as default *)
    Some (head tools).

(** Quick launch by project name and tool *)
Definition quickLaunch (projects : list Project) (projectQuery : string)
    (toolId : option string) : M unit :=
  match quickLaunch_project projects projectQuery with
  | None =>
      emit (LogError ("Project not found: " +:+ projectQuery));;
      emit (LogInfo ("Available: " +:+ join_with ", " (name <$> projects)))
  | Some project =>
      ex ← existsSync (path project);
      if negb ex then
        emit (LogError ("Project path does not exist: " +:+ path project))
      else
        loaded ← loadTools;
        let tools := filter (λ t, enabled t = true) loaded in
        match quickLaunch_tool tools toolId with
        | None =>
            emit (LogError ("Tool not found: " +:+ default "" toolId));;
            emit (LogInfo ("Available: " +:+
                    join_with ", "
                      ((λ t, id t +:+ " (" +:+ tool_name t +:+ ")") <$> tools)))
        | Some tool =>
            addRecent (name project);;
            match tool with
            | Some t => launchTool t (path project)
            | None =>
                throw (mkError "TypeError"
                         "Cannot read properties of undefined (reading 'name')")
            end
        end
  end.

(** ** flows/manage.ts *)

(** What the user answers in the menu of one workspace. [None] is a
    cancelled prompt. *)
Inductive WsAction : Type :=
| WaBack
| WaRename (newName : option string)
| WaPath (newPath : option string)
| WaDelete (confirmed : option bool).

(** What the user answers in one round of [manageWorkspaces]: leaving
    (the entry [back], or the menu cancelled), adding a workspace (a name, then the folder that [browseForWorkspace]
    returns, [None] for [null]; the prompts of the folder browser are not
    traced), or opening the menu of the workspace at an index (the source
    reads the index back from the value [edit-<index>] of the option). *)
Inductive MenuAnswer : Type :=
| AnsBack
| AnsAdd (wsName : option string) (wsPath : option string)
| AnsEdit (wsIndex : nat) (action : WsAction).

Definition set_workspaces (f : list Workspace → list Workspace) (p : Project)
    : Project :=
  mkProject (name p) (path p) (f (workspaces p)) (command p).

(** The project is the element of the shared array at [pidx]: this changes
    its workspaces in place. *)
Definition update_workspaces (pidx : nat) (f : list Workspace → list Workspace)
    : M unit :=
  all ← get_mem;
  put_mem (alter (set_workspaces f) pidx all).

Definition undefined_read (prop : string) : Error :=
  mkError "TypeError"
    ("Cannot read properties of undefined (reading '" +:+ prop +:+ "')").

Definition ws_menu_options (ws : list Workspace) : list string :=
  (["add"] ++ ((λ i, "edit-" +:+ pretty i) <$> seq 0 (length ws)) ++ ["back"])%list.

(** One round of the loop of [manageWorkspaces]; the result tells whether
    the loop goes on. *)
Definition manageWorkspaces_round (pidx : nat) (answer : MenuAnswer) : M bool :=
  all ← get_mem;
  match all !! pidx with
  | None => throw (undefined_read "workspaces")
  | Some project =>
      emit (AskSelect ("Workspaces in " +:+ quoted (name project))
              (ws_menu_options (workspaces project)));;
      match answer with
      | AnsBack => mret false
      | AnsAdd wsName wsPath =>
          emit (AskText "Workspace name");;
          if negb (truthy_ostring wsName) then mret true
          else
            match wsPath with
            | None => mret true
            | Some wsPath =>
                let wsName := default "" wsName in
                update_workspaces pidx (λ ws, (ws ++ [mkWorkspace wsName wsPath])%list);;
                all ← get_mem;
                saveProjects all;;
                emit (LogSuccess ("Workspace " +:+ quoted wsName +:+ " → " +:+ wsPath +:+
                                  " added"));;
                mret true
            end
      | AnsEdit wsIndex action =>
          match workspaces project !! wsIndex with
          | None => throw (undefined_read "name")
          | Some ws =>
              emit (AskSelect ("Workspace " +:+ quoted (ws_name ws))
                      ["rename"; "path"; "delete"; "back"]);;
              match action with
              | WaBack => mret true
              | WaRename newName =>
                  emit (AskText "New workspace name");;
                  if negb (truthy_ostring newName) then mret true
                  else
                    let newName := default "" newName in
                    update_workspaces pidx
                      (alter (λ w, mkWorkspace newName (ws_path w)) wsIndex);;
                    all ← get_mem;
                    saveProjects all;;
                    emit (LogSuccess ("Workspace renamed to " +:+ quoted newName));;
                    mret true
              | WaPath newPath =>
                  emit (AskText "New relative path");;
                  match newPath with
                  | None => mret true
                  | Some newPath =>
                      let newPath := if truthy_string newPath then newPath else "." in
                      update_workspaces pidx
                        (alter (λ w, mkWorkspace (ws_name w) newPath) wsIndex);;
                      all ← get_mem;
                      saveProjects all;;
                      emit (LogSuccess ("Workspace path updated to " +:+ quoted newPath));;
                      mret true
                  end
              | WaDelete confirmed =>
                  if (wsIndex =? 0)%nat then
                    emit (LogWarn "Cannot delete the Root workspace");;
                    mret true
                  else
                    emit (AskConfirm ("Delete workspace " +:+ quoted (ws_name ws) +:+ "?"));;
                    match confirmed with
                    | Some true =>
                        update_workspaces pidx (delete wsIndex);;
                        all ← get_mem;
                        saveProjects all;;
                        emit (LogSuccess ("Workspace " +:+ quoted (ws_name ws) +:+ " deleted"));;
                        mret true
                    | _ => mret true
                    end
              end
          end
      end
  end.

(** [manageWorkspaces(project, allProjects)], with the answers of the user
    in the order the rounds ask for them; when they run out, the menu is
    shown once more and the user cancels it. *)
Fixpoint manageWorkspaces (pidx : nat) (answers : list MenuAnswer) : M unit :=
  match answers with
  | [] => manageWorkspaces_round pidx AnsBack;; mret ()
  | answer :: rest =>
      continue ← manageWorkspaces_round pidx answer;
      if continue : bool then manageWorkspaces pidx rest else mret ()
  end.

End Program.

(** ** flows/launch.ts: the order of the projects in the menu *)

(** [recents.indexOf(name)]: the first position of the name, or -1. *)
Fixpoint indexOf_from (i : Z) (l : list string) (x : string) : Z :=
  match l with
  | [] => -1
  | y :: rest => if String.eqb y x then i else indexOf_from (i + 1) rest x
  end.

Definition indexOf (l : list string) (x : string) : Z := indexOf_from 0 l x.

(** [Array.prototype.sort(compare)] on a copy of the array. The sort of
    the runtime is stable, and for a comparator that is a consistent
    order its result is the one of any stable sort; it is written here as
    an insertion sort, where an element goes before the first element
    that it does not come after. *)
Fixpoint sort_insert {A} (compare : A → A → Z) (x : A) (l : list A) : list A :=
  match l with
  | [] => [x]
  | y :: rest =>
      if (compare x y <=? 0)%Z then x :: y :: rest
      else y :: sort_insert compare x rest
  end.

Definition array_sort {A} (compare : A → A → Z) (l : list A) : list A :=
  foldr (sort_insert compare) [] l.

Section Sorting.

(** [a.localeCompare(b)], which depends on the locale of the runtime. *)
Context (localeCompare : string → string → Z).

(** The comparator of [sortProjects]. *)
Definition compareProjects (recents : list string) (a b : Project) : Z :=
  let aIndex := indexOf recents (name a) in
  let bIndex := indexOf recents (name b) in
  (* Both are recent - sort by recency *)
  if negb (aIndex =? -1)%Z && negb (bIndex =? -1)%Z then (aIndex - bIndex)%Z
  (* Only a is recent *)
  else if negb (aIndex =? -1)%Z then (-1)%Z
  (* Only b is recent *)
  else if negb (bIndex =? -1)%Z then 1%Z
  (* Neither is recent - sort alphabetically *)
  else localeCompare (toLowerCase (name a)) (toLowerCase (name b)).

(** Sort projects: recents first, then alphabetically *)
Definition sortProjects (projects : list Project) (recents : list string)
    : list Project :=
  array_sort (compareProjects recents) projects.

End Sorting.

(** * Properties *)

(** ** Vocabulary of the statements *)

(** A document that a loader cannot use: there is no file at [p] (nothing,
    or a directory), or its text is not JSON, or the JSON value does not
    pass the schema. *)
Definition unusable {A} (s : Schema A) (p : string) (f : FS) : Prop :=
  files f !! p = None ∨
  (∃ raw, files f !! p = Some (Malformed raw)) ∨
  (∃ v, files f !! p = Some (JsonText v) ∧ s (Some v) = None).

(** The shape that the specification gives to [recents.json], an ordered
    array of project-name strings, written as a schema. The program has no
    such schema; this one follows the words of the specification. *)
Definition RecentsSchema_spec : Schema (list string) := z_array z_string.

(** The error of [addRecent] when what [loadRecents] returns is no array. *)
Definition filter_not_a_function : Error :=
  mkError "TypeError" "loadRecents(...).filter is not a function".

(** The config directory can be used: no regular file has taken its place. *)
Definition config_dir_free (env : Env) (f : FS) : Prop :=
  files f !! CONFIG_DIR env = None.

(** The value of [loadRecents] as a function of the files. *)
Definition recents_value (env : Env) (f : FS) : json :=
  match files f !! RECENTS_PATH env with
  | Some (JsonText v) => v
  | _ => JArr []
  end.

(** The list that [addRecent] writes when it has loaded [items]. *)
Definition recents_after (projectName : string) (items : list json) : list json :=
  take 10 (JStr projectName ::
           filter (λ r, strict_neq_string r projectName = true) items).

(** The resolution of the project as the specification words it: an exact
    case-insensitive match first and, only if there is none, the first
    name that contains the query. *)
Definition quickLaunch_project_spec (projects : list Project)
    (projectQuery : string) : option Project :=
  match List.find
          (λ p, String.eqb (toLowerCase (name p)) (toLowerCase projectQuery))
          projects with
  | Some p => Some p
  | None =>
      List.find
        (λ p, includes (toLowerCase (name p)) (toLowerCase projectQuery))
        projects
  end.

(** The command and the arguments that [dispatch] hands to
    [spawnDetached], branch by branch. *)
Definition launch_command (tool : Tool) (workspacePath targetPath : string)
    : string * list string :=
  if launchInTerminal tool then
    if truthy_obool (requiresAdmin tool) then
      ("gsudo",
       ["wt"; "-d"; workspacePath; "pwsh"; "-NoExit"; "-Command"; executable tool])
    else
      ("wt", ["-d"; workspacePath; "pwsh"; "-NoExit"; "-Command"; executable tool])
  else if String.eqb (id tool) "explorer" then ("explorer", [workspacePath])
  else if String.eqb (id tool) "terminal" then ("wt", ["-d"; workspacePath])
  else if String.eqb (id tool) "gitbash" then
    ("git-bash", ["--cd=" +:+ workspacePath])
  else
    (executable tool,
     (if truthy_ostring (launchArgs tool)
      then [default "" (launchArgs tool)] else []) ++ [targetPath]).

(** A tool that is started directly: not in a terminal, and none of the
    three tools that the launcher knows by their id. *)
Definition generic_tool (tool : Tool) : Prop :=
  launchInTerminal tool = false ∧
  id tool ≠ "explorer" ∧ id tool ≠ "terminal" ∧ id tool ≠ "gitbash".

(** The options of every spawn of the launcher. *)
Definition detached_in (dir : string) : SpawnOptions :=
  mkSpawnOptions dir true "ignore" true.

(** The lines of the fallback of a terminal-mode tool: the warning, the
    spawn of the bare terminal and what follows it. *)
Definition fallback_events (env : Env) (workspacePath : string) : list Event :=
  let bare := ["-d"; workspacePath; "pwsh"; "-NoExit"] in
  [LogWarn "Trying fallback launch..."; Spawn "wt" bare (detached_in workspacePath)] ++
  match spawn env "wt" bare (detached_in workspacePath) with
  | SpawnThrows err2 => [LogError ("Fallback failed: " +:+ error_string err2)]
  | _ => [Unref]
  end.

(** What the handler of [launchTool] adds to the trace for the error [e],
    and how it ends: normally, unless the bare terminal of the fallback
    is reported missing while the prompt waits. *)
Definition recovery (env : Env) (tool : Tool) (workspacePath : string) (e : Error)
    : list Event :=
  [LogError ("Failed to launch " +:+ tool_name tool +:+ ": " +:+ error_string e)] ++
  (if launchInTerminal tool then fallback_events env workspacePath else []) ++
  [AskText "Press Enter to continue..."].

Definition recovery_end (env : Env) (tool : Tool) (workspacePath : string)
    : Exc unit :=
  if launchInTerminal tool then
    match spawn env "wt" ["-d"; workspacePath; "pwsh"; "-NoExit"]
            (detached_in workspacePath) with
    | ErrorEvent e2 => Uncaught e2
    | _ => Ok ()
    end
  else Ok ().

(** A process, if the event starts one, is started by the command [cmd]. *)
Definition spawns_only (cmd : string) (e : Event) : Prop :=
  match e with Spawn c _ _ => c = cmd | _ => True end.

(** The world with more events at the end of its trace. *)
Definition emitted (w : World) (events : list Event) : World :=
  mkWorld (fs w) (mem w) (trace w ++ events).

(** The first line that [launchTool] prints. *)
Definition launching (tool : Tool) : Event :=
  LogInfo ("Launching " +:+ tool_name tool +:+ "...").

(** Every run of [m] only adds events to the trace, and the events it adds
    satisfy [P]. *)
Definition emits {A} (P : Event → Prop) (m : M A) : Prop :=
  ∀ w, ∃ events, trace (m w).2 = trace w ++ events ∧ Forall P events.

(** The multiselect of tools offers enabled tools only. *)
Definition offers_enabled (e : Event) : Prop :=
  match e with
  | AskMultiselectTools _ options => Forall (λ t, enabled t = true) options
  | _ => True
  end.

(** An event that starts no process. *)
Definition no_spawn (e : Event) : Prop :=
  match e with
  | Spawn _ _ _ => False
  | _ => True
  end.

(** The menus that a round shows before it acts on a workspace. *)
Definition ws_menus (project : Project) (ws : Workspace) : list Event :=
  [AskSelect ("Workspaces in " +:+ quoted (name project))
     (ws_menu_options (workspaces project));
   AskSelect ("Workspace " +:+ quoted (ws_name ws)) ["rename"; "path"; "delete"; "back"]].

(** The edit of the workspaces of the project that an answer asks for.
    The other answers (a cancelled prompt, an empty name, [back], a
    delete that is not confirmed or that aims at index 0) leave the list
    as it is. *)
Definition ws_edit (a : MenuAnswer) (ws : list Workspace) : list Workspace :=
  match a with
  | AnsAdd wsName (Some wsPath) =>
      if truthy_ostring wsName
      then ws ++ [mkWorkspace (default "" wsName) wsPath]
      else ws
  | AnsEdit i action =>
      match action with
      | WaRename newName =>
          if truthy_ostring newName
          then alter (λ w, mkWorkspace (default "" newName) (ws_path w)) i ws
          else ws
      | WaPath (Some newPath) =>
          alter (λ w, mkWorkspace (ws_name w)
                        (if truthy_string newPath then newPath else ".")) i ws
      | WaDelete (Some true) => if (i =? 0)%nat then ws else delete i ws
      | _ => ws
      end
  | _ => ws
  end.

(** What an answer makes of the entry at index 0: a rename of index 0
    changes its name, a change of path of index 0 changes its path, and
    no answer does anything else to it. *)
Definition root_edit (root : Workspace) (a : MenuAnswer) : Workspace :=
  match a with
  | AnsEdit 0 action =>
      match action with
      | WaRename newName =>
          if truthy_ostring newName
          then mkWorkspace (default "" newName) (ws_path root)
          else root
      | WaPath (Some newPath) =>
          mkWorkspace (ws_name root) (if truthy_string newPath then newPath else ".")
      | _ => root
      end
  | _ => root
  end.

(** The answers that come before the user leaves the menu. *)
Fixpoint before_back (answers : list MenuAnswer) : list MenuAnswer :=
  match answers with
  | [] => []
  | AnsBack :: _ => []
  | a :: rest => a :: before_back rest
  end.

(** The last part of the claim as the specification words it: every
    project still has workspaces, and its entry at index 0 is the one it
    had. *)
Definition root_preserved_spec (before after : list Project) : Prop :=
  ∀ j p, before !! j = Some p →
    ∃ p', after !! j = Some p' ∧
          workspaces p' ≠ [] ∧ head (workspaces p') = head (workspaces p).

(** ** Concrete environments, worlds and tools

    A home directory, an environment where every spawn succeeds and the
    glob engine finds nothing, and the world before the first run. *)
Definition env_demo : Env :=
  mkEnv "C:/Users/me" (λ _ _, Ok []) (λ _ _ _, Started).

Definition world_empty : World := mkWorld (mkFS ∅ ∅) [] [].

(** Twelve recents, the third of which is launched again. *)
Definition world_twelve_recents : World :=
  mkWorld
    (mkFS {[CONFIG_DIR env_demo]}
       {[RECENTS_PATH env_demo :=
           JsonText (JArr (JStr <$> ["a"; "b"; "c"; "d"; "e"; "f"; "g"; "h";
                                     "i"; "j"; "k"; "l"]))]})
    [] [].

(** A [recents.json] that holds a JSON number, beside the folder of a
    project. *)
Definition world_recents_number : World :=
  mkWorld
    (mkFS {[CONFIG_DIR env_demo; "D:/code/my-app"]}
       {[RECENTS_PATH env_demo := JsonText (JNum 42)]})
    [] [].

(** Claude Code with the admin flag that the launcher reads, and without. *)
Definition claude_admin : Tool :=
  mkTool "claude" "Claude Code" "claude" (Some "--version") (Some "claude update")
    true true true None None (Some true).

Definition claude_plain : Tool :=
  mkTool "claude" "Claude Code" "claude" (Some "--version") (Some "claude update")
    true true true None None None.

(** Visual Studio on a folder with two solutions: the engine lists
    [foo.sln] first, and that is what is opened. *)
Definition env_two_solutions : Env :=
  mkEnv "C:/Users/me"
    (λ patterns opts,
       if bool_decide (patterns = ["*.sln"]) then
         Ok [glob_cwd opts +:+ "/foo.sln"; glob_cwd opts +:+ "/bar.sln"]
       else Ok [])
    (λ _ _ _, Started).

Definition solution_tool : Tool :=
  mkTool "vs" "Visual Studio" "devenv" None None true false false None
    (Some ["*.sln"]) None.

(** An environment where the terminal emulator [wt] is not installed:
    the runtime reports the failure as an ['error'] event of the child. *)
Definition env_no_wt : Env :=
  mkEnv "C:/Users/me" (λ _ _, Ok [])
    (λ cmd _ _, if String.eqb cmd "wt"
                then ErrorEvent (mkError "Error" "spawn wt ENOENT") else Started).

(** An environment where every call of [spawn] throws, as the call does
    for arguments that it refuses, and one where only the call for the
    tool throws and the terminal emulator starts. *)
Definition env_spawn_throws : Env :=
  mkEnv "C:/Users/me" (λ _ _, Ok [])
    (λ cmd _ _, SpawnThrows (mkError "TypeError" ("cannot spawn " +:+ cmd))).

Definition env_tool_throws : Env :=
  mkEnv "C:/Users/me" (λ _ _, Ok [])
    (λ _ args _, if bool_decide ("-Command" ∈ args)
                 then SpawnThrows (mkError "TypeError" "cannot spawn the tool")
                 else Started).

Definition idea_tool : Tool :=
  mkTool "idea" "IntelliJ IDEA" "idea" None None true false false None None None.

(** A project with three workspaces in memory, its folder on disk, and
    nothing saved yet. *)
Definition app_project : Project :=
  mkProject "My App" "D:/code/my-app"
    [mkWorkspace "Root" "."; mkWorkspace "Frontend" "apps/web";
     mkWorkspace "Backend" "apps/api"]
    None.

Definition world_app : World :=
  mkWorld (mkFS {["D:/code/my-app"]} ∅) [app_project] [].

(** The first tool of the built-in catalog. *)
Definition claude_default : Tool :=
  default_tool "claude" "Claude Code" "claude" (Some "--version")
    (Some "claude update") true true (Some true) None None.

(** A catalog file whose first tool is disabled. *)
Definition world_first_disabled : World :=
  mkWorld
    (mkFS {[CONFIG_DIR env_demo; "D:/code/my-app"]}
       {[TOOLS_PATH env_demo :=
           JsonText (JArr [JObj [("id", JStr "vs"); ("name", JStr "Visual Studio");
                                 ("executable", JStr "devenv");
                                 ("enabled", JBool false)];
                           JObj [("id", JStr "idea"); ("name", JStr "IntelliJ IDEA");
                                 ("executable", JStr "idea")]])]})
    [app_project] [].

(** ** Vocabulary of the further properties *)

(** A tool as it comes back from [tools.json]: [ToolSchema] keeps the keys
    it declares, so [requiresAdmin] is gone. *)
Definition through_schema (t : Tool) : Tool :=
  mkTool (id t) (tool_name t) (executable t) (versionArgs t) (updateCommand t)
    (enabled t) (launchInTerminal t) (supportsAdmin t) (launchArgs t)
    (projectFilePatterns t) None.


(** A world where the settings name another tool and another folder. *)
Definition settings_demo : Settings := mkSettings "C:/code" "vscode".



Definition is_spawn (e : Event) : bool :=
  match e with Spawn _ _ _ => true | _ => false end.

(** A process, if the event starts one, is started detached in [dir]. *)
Definition spawns_in (dir : string) (e : Event) : Prop :=
  match e with Spawn _ _ opts => opts = detached_in dir | _ => True end.

(** An environment where the glob engine fails. *)
Definition env_glob_fails : Env :=
  mkEnv "C:/Users/me" (λ _ _, Throw (mkError "Error" "EPERM: operation not permitted"))
    (λ _ _ _, Started).

(** A terminal-mode tool that declares project files. *)
Definition notebook_tool : Tool :=
  mkTool "nb" "Notebook" "nb" None None true true false None (Some ["*.nb"]) None.

(** A catalog file where every tool is disabled. *)
Definition world_all_disabled : World :=
  mkWorld
    (mkFS {[CONFIG_DIR env_demo; "D:/code/my-app"]}
       {[TOOLS_PATH env_demo :=
           JsonText (JArr [JObj [("id", JStr "vs"); ("name", JStr "Visual Studio");
                                 ("executable", JStr "devenv");
                                 ("enabled", JBool false)]])]})
    [app_project] [].

(** [projects.json] holds the array in memory. *)
Definition saved (env : Env) (w : World) : Prop :=
  files (fs w) !! CONFIG_PATH env =
    Some (JsonText (JArr (Project_to_json <$> mem w))).

(** The project of the examples, saved. *)
Definition world_app_saved : World :=
  mkWorld
    (mkFS {[CONFIG_DIR env_demo; "D:/code/my-app"]}
       {[CONFIG_PATH env_demo := JsonText (JArr [Project_to_json app_project])]})
    [app_project] [].

(** A comparison of strings that is a consistent order: [a] does not
    come after [b], or [b] does not come after [a]; and "does not come
    after" is transitive. *)
Definition consistent (compare : string → string → Z) : Prop :=
  (∀ a b, (compare a b ≤ 0)%Z ∨ (compare b a ≤ 0)%Z) ∧
  (∀ a b c, (compare a b ≤ 0)%Z → (compare b c ≤ 0)%Z → (compare a c ≤ 0)%Z).

(** A comparison by length, for the examples. *)
Definition by_length (a b : string) : Z :=
  (Z.of_nat (String.length a) - Z.of_nat (String.length b))%Z.

(** ** Scenarios of the specification *)

(** A tool of [tools.json] without the [enabled] field is enabled, not
    launched in a terminal, without admin support. *)
Example tool_missing_enabled :
  ToolSchema (Some (JObj [("id", JStr "zed"); ("name", JStr "Zed");
                          ("executable", JStr "zed")])) =
  Some (mkTool "zed" "Zed" "zed" None None true false false None None None).
Proof. reflexivity. Qed.

(** A project of [projects.json] without workspaces gets the root one. *)
Example project_missing_workspaces :
  ProjectSchema (Some (JObj [("name", JStr "app"); ("path", JStr "D:/code/app")])) =
  Some (mkProject "app" "D:/code/app" [mkWorkspace "Root" "."] None).
Proof. reflexivity. Qed.

(** [null] is not [undefined]: an optional field rejects it. *)
Example project_null_command :
  ProjectSchema (Some (JObj [("name", JStr "app"); ("path", JStr "D:/code/app");
                             ("command", JNull)])) = None.
Proof. reflexivity. Qed.

Example includes_examples :
  includes "beta-app" "beta" = true ∧ includes "beta-app" "app" = true ∧
  includes "beta-app" "" = true ∧ includes "beta" "beta-app" = false ∧
  toLowerCase "BETA-App 2" = "beta-app 2".
Proof. by vm_compute. Qed.

(** ** Paths *)

Arguments String.append : simpl nomatch.

Lemma dirname_aux_join d n :
  dirname_aux n = None → dirname_aux (d +:+ String "/" n) = Some d.
Proof.
  intros Hn. induction d as [|c d IH]; simpl.
  - by rewrite Hn.
  - by rewrite IH.
Qed.

Lemma dirname_join d n : dirname_aux n = None → dirname (join d n) = d.
Proof. intros Hn. unfold dirname, join. simpl. by rewrite dirname_aux_join. Qed.

Lemma length_append s t :
  String.length (s +:+ t) = String.length s + String.length t.
Proof. induction s as [|c s IH]; simpl; [done|by rewrite IH]. Qed.

Lemma ancestors_aux_shorter pre p a :
  a ∈ ancestors_aux pre p → String.length a < String.length pre + String.length p.
Proof.
  revert pre. induction p as [|c r IH]; intros pre; simpl.
  - by intros ?%elem_of_nil.
  - intros [Ha|Ha]%elem_of_app.
    + destruct (Ascii.eqb c "/"); [|by apply elem_of_nil in Ha].
      apply list_elem_of_singleton in Ha as ->. lia.
    + apply IH in Ha. rewrite length_append in Ha. simpl in Ha. lia.
Qed.

(** A path inside a directory is neither the directory nor above it. *)
Lemma join_longer d n a : a = d ∨ a ∈ ancestors d → join d n ≠ a.
Proof.
  intros Ha Heq. assert (String.length a ≤ String.length d)%nat as Hle.
  { destruct Ha as [->|Ha]; [done|].
    apply ancestors_aux_shorter in Ha. simpl in Ha. lia. }
  rewrite <- Heq in Hle. unfold join in Hle.
  rewrite !length_append in Hle. simpl in Hle. lia.
Qed.

Arguments ConfigSchema : simpl never.
Arguments ToolsConfigSchema : simpl never.
Arguments SettingsSchema : simpl never.
Arguments String.append : simpl never.
Arguments DEFAULT_TOOLS : simpl never.
Arguments saveProjects : simpl never.
Arguments loadTools : simpl never.
Arguments addRecent : simpl never.
Arguments launchTool : simpl never.

(** ** Running the monad *)

Ltac run :=
  unfold existsSync, readFileSync, writeFileSync, mkdirSync_recursive,
    JSON_parse, JSON_stringify, parse, get_fs, put_fs, get_mem, put_mem, emit,
    throw, try_catch, is_file, mbind, M_bind, mret, M_ret in *;
  simpl in *.

(** The three cases of a file that a loader reads: malformed text, a JSON
    value, no file. *)
Ltac load_cases w p Hf :=
  destruct (files (fs w) !! p) as [[?|?]|] eqn:Hf; run; rewrite ?Hf; simpl;
  rewrite ?orb_true_r, ?orb_false_r; simpl; rewrite ?Hf; simpl.

Ltac found := eexists _, _; split; [reflexivity|]; split; [done|].

(** ** Config store: loading *)

Lemma loadProjects_default env w :
  ∃ ps w', loadProjects env w = (Ok ps, w') ∧ fs w' = fs w ∧
    (unusable ConfigSchema (CONFIG_PATH env) (fs w) → ps = getDefaultProjects).
Proof.
  unfold loadProjects, unusable.
  load_cases w (CONFIG_PATH env) Hf.
  - found. done.
  - destruct (ConfigSchema (Some v)) as [ps|] eqn:Hs; simpl; found; [|done].
    intros [H|[[raw H]|[v' [H1 H2]]]]; try discriminate. congruence.
  - destruct (is_dir _ _) eqn:Hd; simpl; rewrite ?Hf, ?Hd; found; done.
Qed.

Lemma loadTools_default env w :
  ∃ ts w', loadTools env w = (Ok ts, w') ∧ fs w' = fs w ∧
    (unusable ToolsConfigSchema (TOOLS_PATH env) (fs w) → ts = DEFAULT_TOOLS).
Proof.
  unfold loadTools, unusable.
  load_cases w (TOOLS_PATH env) Hf.
  - found. done.
  - destruct (ToolsConfigSchema (Some v)) as [ts|] eqn:Hs; simpl; found; [|done].
    intros [H|[[raw H]|[v' [H1 H2]]]]; try discriminate. congruence.
  - destruct (is_dir _ _) eqn:Hd; simpl; rewrite ?Hf, ?Hd; found; done.
Qed.

Lemma loadSettings_default env w :
  ∃ s w', loadSettings env w = (Ok s, w') ∧ fs w' = fs w ∧
    (unusable SettingsSchema (SETTINGS_PATH env) (fs w) → s = DEFAULT_SETTINGS).
Proof.
  unfold loadSettings, unusable.
  load_cases w (SETTINGS_PATH env) Hf.
  - found. done.
  - destruct (SettingsSchema (Some v)) as [s|] eqn:Hs; simpl; found; [|done].
    intros [H|[[raw H]|[v' [H1 H2]]]]; try discriminate. congruence.
  - destruct (is_dir _ _) eqn:Hd; simpl; rewrite ?Hf, ?Hd; found; done.
Qed.

(** [loadRecents] leaves the world as it is and returns the parsed value,
    whatever its shape, or the empty array. *)
Lemma loadRecents_run env w : loadRecents env w = (Ok (recents_value env (fs w)), w).
Proof.
  unfold loadRecents, recents_value.
  load_cases w (RECENTS_PATH env) Hf; try done.
  destruct (is_dir _ _) eqn:Hd; simpl; rewrite ?Hf, ?Hd; done.
Qed.

(** ** Config store: saving *)

Lemma ensureConfigDir_run env w :
  ∃ d, ensureConfigDir env w = (Ok (), mkWorld (mkFS d (files (fs w))) (mem w) (trace w)) ∧
    dirs (fs w) ⊆ d ∧
    (∀ n, join (CONFIG_DIR env) n ∈ d → join (CONFIG_DIR env) n ∈ dirs (fs w)) ∧
    (config_dir_free env (fs w) → CONFIG_DIR env ∈ d) ∧
    (CONFIG_DIR env ∈ dirs (fs w) → d = dirs (fs w)).
Proof.
  unfold ensureConfigDir, config_dir_free. run.
  destruct (files (fs w) !! CONFIG_DIR env) eqn:Hf; simpl.
  - rewrite orb_true_r. simpl. exists (dirs (fs w)).
    split; [by destruct w as [[??]??]|]. repeat split; done.
  - rewrite orb_false_r. unfold is_dir. case_bool_decide as Hd; simpl.
    + exists (dirs (fs w)). split; [by destruct w as [[??]??]|]. repeat split; done.
    + eexists. split; [reflexivity|]. repeat split.
      * set_solver.
      * intros n [Hn|Hn]%elem_of_union; [done|].
        exfalso. eapply join_longer; [|reflexivity].
        apply elem_of_union in Hn as [Hn|Hn]; [left|right].
        -- by apply elem_of_singleton in Hn.
        -- by apply elem_of_list_to_set in Hn.
      * intros _. set_solver.
      * done.
Qed.

Lemma writeFileSync_run p t w :
  writeFileSync p t w =
  if is_dir (dirname p) (fs w) && negb (is_dir p (fs w))
  then (Ok (), mkWorld (mkFS (dirs (fs w)) (<[p := t]> (files (fs w)))) (mem w) (trace w))
  else (Throw (mkError "Error" (if is_dir p (fs w) then "EISDIR" else "ENOENT")), w).
Proof. unfold writeFileSync. run. by destruct (_ && _). Qed.

(** Writing a document of the config directory after [ensureConfigDir]:
    the write goes through exactly when the config directory is there and
    the document is not itself a directory. *)
Lemma save_run env n t w :
  dirname_aux n = None →
  let p := join (CONFIG_DIR env) n in
  ∃ d, dirs (fs w) ⊆ d ∧
    (CONFIG_DIR env ∈ dirs (fs w) → d = dirs (fs w)) ∧
    (ensureConfigDir env;; writeFileSync p t) w =
    (if bool_decide (CONFIG_DIR env ∈ d) && bool_decide (p ∉ dirs (fs w))
     then (Ok (), mkWorld (mkFS d (<[p := t]> (files (fs w)))) (mem w) (trace w))
     else (Throw (mkError "Error"
                    (if bool_decide (p ∈ dirs (fs w)) then "EISDIR" else "ENOENT")),
           mkWorld (mkFS d (files (fs w))) (mem w) (trace w))) ∧
    (config_dir_free env (fs w) → CONFIG_DIR env ∈ d).
Proof.
  intros Hn p.
  destruct (ensureConfigDir_run env w) as (d & Hrun & Hsub & Hnew & Hfree & Hsame).
  exists d. split; [done|]. split; [done|]. split; [|done].
  unfold mbind, M_bind. rewrite Hrun. rewrite writeFileSync_run. simpl.
  subst p. rewrite dirname_join by done. unfold is_dir. simpl.
  assert (bool_decide (join (CONFIG_DIR env) n ∈ d) =
          bool_decide (join (CONFIG_DIR env) n ∈ dirs (fs w))) as ->.
  { apply bool_decide_ext. split; [apply Hnew|apply Hsub]. }
  rewrite <- bool_decide_not.
  by destruct (bool_decide (CONFIG_DIR env ∈ d)),
       (bool_decide (join (CONFIG_DIR env) n ∈ dirs (fs w))).
Qed.

(** Saving changes neither the array in memory nor the trace. *)
Lemma saveProjects_frame env ps w :
  mem (saveProjects env ps w).2 = mem w ∧ trace (saveProjects env ps w).2 = trace w.
Proof.
  unfold saveProjects.
  destruct (save_run env "projects.json"
              (JSON_stringify (JArr (Project_to_json <$> ps))) w)
    as (d & _ & _ & Hrun & _); [done|].
  fold (CONFIG_PATH env) in *. rewrite Hrun. by destruct (_ && _).
Qed.

(** What a successful [saveProjects] leaves in [projects.json], and when
    it is successful. *)
Lemma saveProjects_written env ps w w' :
  saveProjects env ps w = (Ok (), w') →
  files (fs w') !! CONFIG_PATH env =
    Some (JsonText (JArr (Project_to_json <$> ps))).
Proof.
  unfold saveProjects.
  destruct (save_run env "projects.json"
              (JSON_stringify (JArr (Project_to_json <$> ps))) w)
    as (d & _ & _ & Hrun & _); [done|].
  fold (CONFIG_PATH env) in *. rewrite Hrun.
  destruct (_ && _); [|done]. intros [= <-]. simpl. by rewrite lookup_insert_eq.
Qed.

Lemma saveProjects_succeeds env ps w :
  config_dir_free env (fs w) → CONFIG_PATH env ∉ dirs (fs w) →
  ∃ w', saveProjects env ps w = (Ok (), w').
Proof.
  intros Hf Hd. unfold saveProjects.
  destruct (save_run env "projects.json"
              (JSON_stringify (JArr (Project_to_json <$> ps))) w)
    as (d & _ & _ & Hrun & Hfree); [done|].
  fold (CONFIG_PATH env) in *. rewrite Hrun.
  rewrite bool_decide_true by auto. rewrite (bool_decide_true _ Hd). simpl. eauto.
Qed.

(** ** Schemas read back what the program writes *)

Lemma parse_items_fmap {A} (s : Schema A) (f : A → json) (l : list A) :
  (∀ x, s (Some (f x)) = Some x) → parse_items s (f <$> l) = Some l.
Proof.
  intros Hs. induction l as [|x l IH]; csimpl; [done|].
  by rewrite Hs, IH.
Qed.

Lemma WorkspaceSchema_to_json w :
  WorkspaceSchema (Some (Workspace_to_json w)) = Some w.
Proof. by destruct w. Qed.

Lemma ProjectSchema_to_json p : ProjectSchema (Some (Project_to_json p)) = Some p.
Proof.
  destruct p as [n pa ws c]. unfold ProjectSchema, Project_to_json. simpl.
  rewrite (parse_items_fmap _ _ _ WorkspaceSchema_to_json). simpl.
  by destruct c.
Qed.

Lemma ConfigSchema_to_json ps :
  ConfigSchema (Some (JArr (Project_to_json <$> ps))) = Some ps.
Proof. apply parse_items_fmap, ProjectSchema_to_json. Qed.

Lemma loadProjects_of_file env w v ps :
  files (fs w) !! CONFIG_PATH env = Some (JsonText v) →
  ConfigSchema (Some v) = Some ps →
  loadProjects env w = (Ok ps, w).
Proof.
  intros Hf Hs. unfold loadProjects. run. rewrite Hf. simpl.
  rewrite orb_true_r. simpl. rewrite Hf, Hs. simpl.
  by destruct ps.
Qed.

Lemma loadTools_of_file env w v ts :
  files (fs w) !! TOOLS_PATH env = Some (JsonText v) →
  ToolsConfigSchema (Some v) = Some ts →
  loadTools env w = (Ok (if (0 <? length ts)%nat then ts else DEFAULT_TOOLS), w).
Proof.
  intros Hf Hs. unfold loadTools. run. rewrite Hf. simpl.
  rewrite orb_true_r. simpl. by rewrite Hf, Hs.
Qed.

(** C7. Whenever [saveProjects] has written an array of projects,
    [loadProjects] returns the same array, project by project and field
    by field, and logs nothing; and [saveProjects] does write when the
    config directory can be used and [projects.json] is not a directory. *)
Theorem saveProjects_loadProjects env ps w :
  (∀ w', saveProjects env ps w = (Ok (), w') → loadProjects env w' = (Ok ps, w')) ∧
  (config_dir_free env (fs w) → CONFIG_PATH env ∉ dirs (fs w) →
   ∃ w', saveProjects env ps w = (Ok (), w')).
Proof.
  unfold saveProjects.
  destruct (save_run env "projects.json"
              (JSON_stringify (JArr (Project_to_json <$> ps))) w)
    as (d & Hsub & Hsame & Hrun & Hfree); [done|].
  fold (CONFIG_PATH env) in *. rewrite Hrun. split.
  - intros w' Hok. destruct (_ && _); [|done]. injection Hok as <-.
    eapply loadProjects_of_file; simpl.
    + by rewrite lookup_insert_eq.
    + apply ConfigSchema_to_json.
  - intros Hf Hd. rewrite bool_decide_true by auto.
    rewrite (bool_decide_true _ Hd). simpl. eauto.
Qed.

(** The round trip on the first run, with a project of two workspaces and
    a command. *)
Lemma saveProjects_loadProjects_witness :
  let ps := [mkProject "My App" "D:/code/my-app"
               [mkWorkspace "Root" "."; mkWorkspace "Frontend" "apps/web"]
               (Some "dev")] in
  ∃ w', saveProjects env_demo ps world_empty = (Ok (), w') ∧
        loadProjects env_demo w' = (Ok ps, w').
Proof.
  intros ps.
  destruct (saveProjects_loadProjects env_demo ps world_empty) as [Hload Hsave].
  destruct Hsave as [w' Hw'].
  - reflexivity.
  - apply not_elem_of_empty.
  - exists w'. split; [exact Hw'|]. apply Hload, Hw'.
Defined.

(** C10. An empty array in [tools.json] is read as the built-in catalog;
    [loadTools] never returns the empty list; and after [saveTools([])]
    the catalog that [loadTools] returns is the built-in one, not the
    empty list that was saved. *)
Theorem empty_tools_reload_default env w :
  (files (fs w) !! TOOLS_PATH env = Some (JsonText (JArr [])) →
   loadTools env w = (Ok DEFAULT_TOOLS, w)) ∧
  (∃ ts w', loadTools env w = (Ok ts, w') ∧ ts ≠ []) ∧
  (∀ w', saveTools env [] w = (Ok (), w') →
         loadTools env w' = (Ok DEFAULT_TOOLS, w') ∧ DEFAULT_TOOLS ≠ []).
Proof.
  split; [|split].
  - intros Hf. by rewrite (loadTools_of_file env w (JArr []) []).
  - unfold loadTools.
    load_cases w (TOOLS_PATH env) Hf.
    + eexists _, _. split; [reflexivity|done].
    + destruct (ToolsConfigSchema (Some v)) as [ts|] eqn:Hs; simpl.
      * eexists _, _. split; [reflexivity|]. by destruct ts.
      * eexists _, _. split; [reflexivity|done].
    + destruct (is_dir _ _) eqn:Hd; simpl; rewrite ?Hf, ?Hd;
        eexists _, _; (split; [reflexivity|done]).
  - intros w'. unfold saveTools.
    destruct (save_run env "tools.json"
                (JSON_stringify (JArr (Tool_to_json <$> []))) w)
      as (d & Hsub & Hsame & Hrun & Hfree); [done|].
    fold (TOOLS_PATH env) in *. rewrite Hrun.
    destruct (_ && _); [|done]. intros [= <-]. split; [|done].
    rewrite (loadTools_of_file env _ (JArr []) []); [done| |done].
    simpl. by rewrite lookup_insert_eq.
Qed.

(** Saving the empty catalog on the first run, then loading. *)
Lemma empty_tools_reload_default_witness :
  ∃ w', saveTools env_demo [] world_empty = (Ok (), w') ∧
        files (fs w') !! TOOLS_PATH env_demo = Some (JsonText (JArr [])) ∧
        loadTools env_demo w' = (Ok DEFAULT_TOOLS, w').
Proof.
  eexists. split; [by vm_compute|].
  split; [by vm_compute|].
  apply (empty_tools_reload_default env_demo). by vm_compute.
Defined.

(** ** Recents *)

Lemma addRecent_run env name w :
  ∃ d, dirs (fs w) ⊆ d ∧
    (CONFIG_DIR env ∈ dirs (fs w) → d = dirs (fs w)) ∧
    (config_dir_free env (fs w) → CONFIG_DIR env ∈ d) ∧
    (RECENTS_PATH env ∈ d → RECENTS_PATH env ∈ dirs (fs w)) ∧
    addRecent env name w =
    match recents_value env (fs w) with
    | JArr items =>
        if bool_decide (CONFIG_DIR env ∈ d) &&
           bool_decide (RECENTS_PATH env ∉ dirs (fs w))
        then (Ok (),
              mkWorld
                (mkFS d (<[RECENTS_PATH env := JsonText (JArr (recents_after name items))]>
                           (files (fs w))))
                (mem w) (trace w))
        else (Throw (mkError "Error"
                       (if bool_decide (RECENTS_PATH env ∈ dirs (fs w))
                        then "EISDIR" else "ENOENT")),
              mkWorld (mkFS d (files (fs w))) (mem w) (trace w))
    | _ => (Throw (mkError "TypeError" "loadRecents(...).filter is not a function"),
            mkWorld (mkFS d (files (fs w))) (mem w) (trace w))
    end.
Proof.
  destruct (ensureConfigDir_run env w) as (d & Hrun & Hsub & Hnew & Hfree & Hsame).
  exists d. split; [done|]. split; [done|]. split; [done|].
  split; [apply Hnew|].
  unfold addRecent. unfold mbind at 1, M_bind at 1. rewrite Hrun.
  unfold mbind, M_bind. rewrite loadRecents_run. unfold recents_value. simpl.
  destruct (files (fs w) !! RECENTS_PATH env) as [[raw|v]|] eqn:Hf.
  all: try destruct v; simpl; try reflexivity.
  all: rewrite writeFileSync_run; simpl.
  all: unfold RECENTS_PATH at 1 2; rewrite dirname_join by done; fold (RECENTS_PATH env).
  all: unfold is_dir; simpl.
  all: assert (bool_decide (RECENTS_PATH env ∈ d) =
               bool_decide (RECENTS_PATH env ∈ dirs (fs w))) as ->
         by (apply bool_decide_ext; split; [apply Hnew|apply Hsub]).
  all: rewrite <- bool_decide_not.
  all: by destruct (bool_decide (CONFIG_DIR env ∈ d)),
            (bool_decide (RECENTS_PATH env ∈ dirs (fs w))).
Qed.

(** [addRecent] changes neither the array in memory nor the trace. *)
Lemma addRecent_frame env name w :
  mem (addRecent env name w).2 = mem w ∧ trace (addRecent env name w).2 = trace w.
Proof.
  destruct (addRecent_run env name w) as (d & _ & _ & _ & _ & ->).
  destruct (recents_value env (fs w)); try done. by destruct (_ && _).
Qed.

Lemma recents_after_cons name items :
  recents_after name items =
  JStr name :: take 9 (filter (λ r, strict_neq_string r name = true) items).
Proof. reflexivity. Qed.

Lemma strict_neq_string_self name : strict_neq_string (JStr name) name = false.
Proof. simpl. by rewrite String.eqb_refl. Qed.

Lemma recents_after_once name items rest :
  recents_after name items = JStr name :: rest → JStr name ∉ rest.
Proof.
  rewrite recents_after_cons. intros [= <-].
  intros [i [Hi _]]%elem_of_take.
  apply list_elem_of_lookup_2, list_elem_of_filter in Hi as [Hi _].
  by rewrite strict_neq_string_self in Hi.
Qed.

Lemma recents_after_length name items : (length (recents_after name items) ≤ 10)%nat.
Proof. unfold recents_after. rewrite length_take. lia. Qed.

Lemma filter_all {A} (P : A → Prop) `{∀ x, Decision (P x)} (l : list A) :
  Forall P l → filter P l = l.
Proof.
  induction 1 as [|x l Hx _ IH]; [done|].
  by rewrite filter_cons_True, IH.
Qed.

Lemma recents_after_idemp name items :
  recents_after name (recents_after name items) = recents_after name items.
Proof.
  rewrite !recents_after_cons. f_equal.
  rewrite filter_cons_False by (by rewrite strict_neq_string_self).
  rewrite filter_all.
  - by rewrite take_take.
  - apply Forall_take, Forall_forall. by intros x [? _]%list_elem_of_filter.
Qed.

(** C4. Whenever [addRecent(name)] has written, the list in
    [recents.json] is the prior list without [name], with [name] put in
    front, cut to its first 10 entries: [name] is at index 0 and nowhere
    else, the length is at most 10, and calling [addRecent(name)] again
    leaves the world as it is. [addRecent] does write when the config
    directory can be used, [recents.json] is not a directory and what it
    holds, if it is JSON, is an array. *)
Theorem addRecent_front_capped env name w :
  (∀ w', addRecent env name w = (Ok (), w') →
     ∃ items rest,
       loadRecents env w = (Ok (JArr items), w) ∧
       files (fs w') !! RECENTS_PATH env = Some (JsonText (JArr (JStr name :: rest))) ∧
       (JStr name :: rest) =
         take 10 (JStr name :: filter (λ r, strict_neq_string r name = true) items) ∧
       (JStr name ∉ rest) ∧
       (length (JStr name :: rest) ≤ 10)%nat ∧
       addRecent env name w' = (Ok (), w')) ∧
  (config_dir_free env (fs w) →
   RECENTS_PATH env ∉ dirs (fs w) →
   (∀ v, files (fs w) !! RECENTS_PATH env = Some (JsonText v) → ∃ items, v = JArr items) →
   ∃ w', addRecent env name w = (Ok (), w')).
Proof.
  destruct (addRecent_run env name w) as (d & Hsub & Hsame & Hfree & Hnew & Hrun).
  rewrite Hrun. split.
  - intros w' Hok.
    destruct (recents_value env (fs w)) as [| | | |items|] eqn:Hv; try done.
    destruct (bool_decide (CONFIG_DIR env ∈ d)) eqn:Hd; [|done].
    destruct (bool_decide (RECENTS_PATH env ∉ dirs (fs w))) eqn:Hr; [|done].
    simpl in Hok. injection Hok as <-.
    apply bool_decide_eq_true in Hd, Hr.
    exists items, (take 9 (filter (λ r, strict_neq_string r name = true) items)).
    split; [by rewrite loadRecents_run, Hv|].
    split; [by simpl; rewrite lookup_insert_eq|].
    split; [done|].
    split; [by eapply recents_after_once|].
    split; [apply (recents_after_length name items)|].
    set (w' := mkWorld _ _ _).
    destruct (addRecent_run env name w') as (d' & _ & Hsame' & _ & _ & ->).
    rewrite Hsame' by done.
    unfold recents_value. subst w'. simpl. rewrite lookup_insert_eq.
    rewrite (bool_decide_true _ Hd), bool_decide_true by auto. simpl.
    by rewrite recents_after_idemp, insert_insert_eq.
  - intros Hf Hr Harr.
    assert (∃ items, recents_value env (fs w) = JArr items) as [items ->].
    { unfold recents_value.
      destruct (files (fs w) !! RECENTS_PATH env) as [[raw|v]|]; eauto. }
    rewrite bool_decide_true by auto. rewrite (bool_decide_true _ Hr). simpl. eauto.
Qed.

Lemma addRecent_front_capped_witness :
  ∃ w', addRecent env_demo "c" world_twelve_recents = (Ok (), w') ∧
        files (fs w') !! RECENTS_PATH env_demo =
          Some (JsonText (JArr (JStr <$> ["c"; "a"; "b"; "d"; "e"; "f"; "g"; "h";
                                          "i"; "j"]))) ∧
        addRecent env_demo "c" w' = (Ok (), w').
Proof.
  destruct (addRecent_front_capped env_demo "c" world_twelve_recents)
    as [Hwritten Hwrites].
  destruct Hwrites as [w' Hw'].
  - reflexivity.
  - by vm_compute.
  - intros v Hv. vm_compute in Hv. injection Hv as <-. eauto.
  - exists w'. split; [exact Hw'|].
    destruct (Hwritten w' Hw') as (items & rest & Hload & Hfile & Hrest & _ & _ & Hagain).
    split; [|exact Hagain].
    rewrite Hfile. rewrite loadRecents_run in Hload.
    injection Hload as Hitems. vm_compute in Hitems. subst items.
    by rewrite Hrest.
Defined.

(** C3. The loaders of the projects, of the tools and of the settings do
    what the claim says: they never throw, create no file, and return
    the default of their document when the file is missing, is not JSON
    or does not pass the schema. [loadRecents] does it for a file that
    is missing or is not JSON, but it applies no schema: a document of
    the wrong shape is returned as it is, not replaced by the empty list.
    When that value is no array, [addRecent] then throws on it and
    writes nothing. *)
Theorem loadRecents_skips_validation env w :
  (∃ ps w', loadProjects env w = (Ok ps, w') ∧ fs w' = fs w ∧
     (unusable ConfigSchema (CONFIG_PATH env) (fs w) → ps = [])) ∧
  (∃ ts w', loadTools env w = (Ok ts, w') ∧ fs w' = fs w ∧
     (unusable ToolsConfigSchema (TOOLS_PATH env) (fs w) → ts = DEFAULT_TOOLS)) ∧
  (∃ s w', loadSettings env w = (Ok s, w') ∧ fs w' = fs w ∧
     (unusable SettingsSchema (SETTINGS_PATH env) (fs w) → s = DEFAULT_SETTINGS)) ∧
  (files (fs w) !! RECENTS_PATH env = None ∨
   (∃ raw, files (fs w) !! RECENTS_PATH env = Some (Malformed raw)) →
   loadRecents env w = (Ok (JArr []), w)) ∧
  (∀ v, files (fs w) !! RECENTS_PATH env = Some (JsonText v) →
        RecentsSchema_spec (Some v) = None →
        unusable RecentsSchema_spec (RECENTS_PATH env) (fs w) ∧
        loadRecents env w = (Ok v, w) ∧
        v ≠ JArr [] ∧
        ((∀ items, v ≠ JArr items) →
         ∀ name, ∃ w', addRecent env name w = (Throw filter_not_a_function, w') ∧
                       files (fs w') = files (fs w))).
Proof.
  split; [apply loadProjects_default|].
  split; [apply loadTools_default|].
  split; [apply loadSettings_default|].
  split.
  - rewrite loadRecents_run. unfold recents_value.
    by intros [->|[raw ->]].
  - intros v Hfile Hshape.
    split; [right; right; by exists v|].
    split; [rewrite loadRecents_run; unfold recents_value; by rewrite Hfile|].
    split; [by intros ->|].
    intros Hnoarray name.
    destruct (addRecent_run env name w) as (d & _ & _ & _ & _ & ->).
    unfold recents_value. rewrite Hfile.
    destruct v; try (by eexists); by destruct (Hnoarray items).
Qed.

(** The theorem on a [recents.json] that holds the JSON number 42, and on
    the world before the first run, where every loader returns its
    default. *)
Lemma loadRecents_skips_validation_witness :
  RecentsSchema_spec (Some (JNum 42)) = None ∧
  loadRecents env_demo world_recents_number = (Ok (JNum 42), world_recents_number) ∧
  (loadRecents env_demo world_recents_number).1 ≠ Ok (JArr []) ∧
  (∃ w', addRecent env_demo "My App" world_recents_number =
           (Throw filter_not_a_function, w')) ∧
  (∃ w', loadProjects env_demo world_empty = (Ok [], w')) ∧
  (∃ w', loadTools env_demo world_empty = (Ok DEFAULT_TOOLS, w')) ∧
  (∃ w', loadSettings env_demo world_empty = (Ok DEFAULT_SETTINGS, w')) ∧
  loadRecents env_demo world_empty = (Ok (JArr []), world_empty).
Proof.
  destruct (loadRecents_skips_validation env_demo world_recents_number)
    as (_ & _ & _ & _ & Hshape).
  destruct (Hshape (JNum 42)) as (_ & Hload & Hne & Hadd); [reflexivity|reflexivity|].
  destruct (loadRecents_skips_validation env_demo world_empty)
    as ((ps & w1 & Hp & _ & Hps) & (ts & w2 & Ht & _ & Hts) &
        (s & w3 & Hs & _ & Hss) & Hnone & _).
  rewrite Hps in Hp by (left; reflexivity).
  rewrite Hts in Ht by (left; reflexivity).
  rewrite Hss in Hs by (left; reflexivity).
  split; [reflexivity|]. split; [exact Hload|].
  split; [rewrite Hload; simpl; congruence|].
  split.
  { destruct (Hadd (λ items, ltac:(discriminate)) "My App") as (w' & Hw' & _).
    by exists w'. }
  split; [by exists w1|]. split; [by exists w2|]. split; [by exists w3|].
  apply Hnone. by left.
Defined.

(** ** Launcher *)

Lemma emitted_emitted w es1 es2 : emitted (emitted w es1) es2 = emitted w (es1 ++ es2).
Proof. unfold emitted. simpl. by rewrite app_assoc. Qed.

Lemma emit_run e w : emit e w = (Ok (), emitted w [e]).
Proof. reflexivity. Qed.

Lemma spawnDetached_run env cmd args dir w :
  spawnDetached env cmd args dir w =
  match spawn env cmd args (detached_in dir) with
  | Started => (Ok None, emitted w [Spawn cmd args (detached_in dir); Unref])
  | SpawnThrows e => (Throw e, emitted w [Spawn cmd args (detached_in dir)])
  | ErrorEvent e => (Ok (Some e), emitted w [Spawn cmd args (detached_in dir); Unref])
  end.
Proof.
  unfold spawnDetached, detached_in. unfold mbind, M_bind. rewrite emit_run.
  destruct (spawn env cmd args _); [|done|];
    by rewrite emit_run, emitted_emitted.
Qed.

(** [dispatch] spawns the command of its branch, in the workspace folder. *)
Lemma dispatch_run env tool ws target :
  dispatch env tool ws target =
  spawnDetached env (launch_command tool ws target).1
    (launch_command tool ws target).2 ws.
Proof.
  unfold dispatch, launch_command.
  destruct (launchInTerminal tool); [by destruct (truthy_obool _)|].
  by repeat (destruct (String.eqb (id tool) _); [done|]).
Qed.

(** The target: the first file that the glob engine returns for the
    patterns of the tool, searched in the workspace folder one level deep
    with absolute results, or the workspace folder. *)
Lemma resolveTarget_run env tool ws w :
  resolveTarget env tool ws w =
  match projectFilePatterns tool with
  | Some ((_ :: _) as patterns) =>
      match fg env patterns (mkGlobOptions ws true true 1) with
      | Ok found =>
          match head found with
          | Some f =>
              if truthy_string f
              then (Ok f, emitted w [LogInfo ("Found project file: " +:+ f)])
              else (Ok ws, w)
          | None => (Ok ws, w)
          end
      | Throw e => (Throw e, w)
      | Uncaught e => (Uncaught e, w)
      end
  | _ => (Ok ws, w)
  end.
Proof.
  unfold resolveTarget, findProjectFile.
  destruct (projectFilePatterns tool) as [[|p ps]|]; try done. simpl.
  unfold mbind, M_bind.
  destruct (fg env (p :: ps) _) as [found|e|e]; [|done|done]. simpl.
  destruct (head found) as [f|]; simpl; [|done].
  by destruct (truthy_string f).
Qed.

(** The handler of [launchTool]: the report of the error, the fallback
    of the terminal-mode tools and the prompt. *)
Lemma handler_run env tool ws e w :
  (emit (LogError ("Failed to launch " +:+ tool_name tool +:+ ": " +:+
                   error_string e));;
   queued ←
     (if launchInTerminal tool then
        try_catch
          (emit (LogWarn "Trying fallback launch...");;
           spawnDetached env "wt" ["-d"; ws; "pwsh"; "-NoExit"] ws)
          (λ err2,
             emit (LogError ("Fallback failed: " +:+ error_string err2));;
             mret None)
      else mret None);
   emit (AskText "Press Enter to continue...");;
   deliver queued) w =
  (recovery_end env tool ws, emitted w (recovery env tool ws e)).
Proof.
  unfold recovery, recovery_end, fallback_events.
  unfold mbind at 1, M_bind at 1. rewrite emit_run.
  unfold mbind at 1, M_bind at 1.
  destruct (launchInTerminal tool).
  - unfold try_catch, mbind, M_bind. rewrite emit_run, emitted_emitted.
    rewrite spawnDetached_run.
    destruct (spawn env "wt" _ (detached_in ws)) as [|err2|e2];
      rewrite ?emit_run, ?emitted_emitted; simpl;
      rewrite ?emitted_emitted; simpl;
      unfold emitted, mret, M_ret, uncaught; simpl; rewrite <- ?app_assoc; done.
  - unfold mret, M_ret, mbind, M_bind. by rewrite emit_run, emitted_emitted.
Qed.

(** What [launchTool] does once the target is resolved: one spawn; when
    the child is created, the pause and the report; when the call of
    [spawn] throws, the handler; when the runtime reports the failure as
    an ['error'] event, nothing of the handler: the event is delivered
    during the pause and ends the process. *)
Lemma launchTool_run env tool ws w target w1 :
  resolveTarget env tool ws (emitted w [launching tool]) = (Ok target, w1) →
  let cmd := (launch_command tool ws target).1 in
  let args := (launch_command tool ws target).2 in
  launchTool env tool ws w =
  match spawn env cmd args (detached_in ws) with
  | Started =>
      (Ok (), emitted w1 [Spawn cmd args (detached_in ws); Unref; Sleep 500;
                          LogSuccess (tool_name tool +:+ " launched")])
  | SpawnThrows e =>
      (recovery_end env tool ws,
       emitted w1 (Spawn cmd args (detached_in ws) :: recovery env tool ws e))
  | ErrorEvent e =>
      (Uncaught e, emitted w1 [Spawn cmd args (detached_in ws); Unref; Sleep 500])
  end.
Proof.
  intros Htarget cmd args. unfold launchTool.
  unfold mbind at 1, M_bind at 1. rewrite emit_run. fold (launching tool).
  unfold try_catch at 1. unfold mbind at 1, M_bind at 1. rewrite Htarget.
  unfold mbind at 1, M_bind at 1. rewrite dispatch_run, spawnDetached_run.
  fold cmd args.
  destruct (spawn env cmd args (detached_in ws)) as [|e|e].
  - unfold mbind, M_bind. rewrite emit_run, emitted_emitted. simpl.
    unfold emitted. simpl. by rewrite <- ?app_assoc.
  - rewrite handler_run. by rewrite emitted_emitted.
  - unfold mbind, M_bind. by rewrite emit_run, emitted_emitted.
Qed.

(** When the search of the project file throws, the handler runs and no
    process is started for the tool. *)
Lemma launchTool_no_target env tool ws w e w1 :
  resolveTarget env tool ws (emitted w [launching tool]) = (Throw e, w1) →
  launchTool env tool ws w =
  (recovery_end env tool ws, emitted w1 (recovery env tool ws e)).
Proof.
  intros Htarget. unfold launchTool.
  unfold mbind at 1, M_bind at 1. rewrite emit_run. fold (launching tool).
  unfold try_catch at 1. unfold mbind at 1, M_bind at 1. rewrite Htarget.
  apply handler_run.
Qed.

(** ** The admin flag that the launcher reads *)

(** [ToolSchema] declares [supportsAdmin] and drops the keys it does not
    declare, and the built-in catalog gives [supportsAdmin]: a tool of a
    catalog that [loadTools] returns has no [requiresAdmin] for the
    launcher to read. *)
Lemma ToolSchema_no_requiresAdmin v tool :
  ToolSchema v = Some tool → requiresAdmin tool = None.
Proof.
  unfold ToolSchema. destruct v as [[| | | | |o]|]; try done.
  intros Hparse.
  repeat match type of Hparse with
         | (?m ≫= _) = Some _ => destruct m; simpl in Hparse; [|done]
         end.
  by injection Hparse as <-.
Qed.

Lemma DEFAULT_TOOLS_no_requiresAdmin :
  Forall (λ tool, requiresAdmin tool = None) DEFAULT_TOOLS.
Proof. by repeat constructor. Qed.

Lemma parse_items_Forall {A} (s : Schema A) (P : A → Prop) items l :
  (∀ x a, s (Some x) = Some a → P a) →
  parse_items s items = Some l → Forall P l.
Proof.
  intros Hs. revert l. induction items as [|x items IH]; intros l; simpl.
  - intros [= <-]. constructor.
  - destruct (s (Some x)) as [a|] eqn:Hx; [|done].
    destruct (parse_items s items) as [r|]; [|done].
    intros [= <-]. constructor; eauto.
Qed.

Lemma loadTools_no_requiresAdmin env w tools w' :
  loadTools env w = (Ok tools, w') →
  Forall (λ tool, requiresAdmin tool = None) tools.
Proof.
  unfold loadTools. load_cases w (TOOLS_PATH env) Hf.
  - intros [= <- _]. apply DEFAULT_TOOLS_no_requiresAdmin.
  - destruct (ToolsConfigSchema (Some v)) as [ts|] eqn:Hs; simpl.
    + intros [= <- _]. destruct ts as [|t ts]; [apply DEFAULT_TOOLS_no_requiresAdmin|].
      simpl. unfold ToolsConfigSchema, z_array in Hs. destruct v; try done.
      eapply parse_items_Forall; [|exact Hs].
      intros x a. apply ToolSchema_no_requiresAdmin.
    + intros [= <- _]. apply DEFAULT_TOOLS_no_requiresAdmin.
  - destruct (is_dir _ _) eqn:Hd; simpl; rewrite ?Hf, ?Hd;
      intros [= <- _]; apply DEFAULT_TOOLS_no_requiresAdmin.
Qed.

(** C1. The launcher has the branch that the claim describes: for a
    terminal-mode tool whose [requiresAdmin] is truthy it starts [gsudo]
    wrapping [wt -d <folder> pwsh -NoExit -Command <executable>]. But
    [requiresAdmin] is not a key of the tools of the program: the schema
    and the built-in catalog carry [supportsAdmin]. So for every
    terminal-mode tool of a catalog that [loadTools] returns, whatever
    its [supportsAdmin], the process that the launcher starts for the
    tool is the plain [wt] invocation, and no process of the run is
    started by a command other than [wt]: the tools that the catalog
    marks as needing admin are never elevated. *)
Theorem launchTool_admin_without_gsudo env w tools w' tool ws w0 :
  loadTools env w = (Ok tools, w') →
  tool ∈ tools →
  launchInTerminal tool = true →
  let term := ["-d"; ws; "pwsh"; "-NoExit"; "-Command"; executable tool] in
  (∀ t target, launchInTerminal t = true → truthy_obool (requiresAdmin t) = true →
     dispatch env t ws target =
     spawnDetached env "gsudo"
       ["wt"; "-d"; ws; "pwsh"; "-NoExit"; "-Command"; executable t] ws) ∧
  requiresAdmin tool = None ∧
  (∀ target w1,
     resolveTarget env tool ws (emitted w0 [launching tool]) = (Ok target, w1) →
     ∃ rest, trace (launchTool env tool ws w0).2 =
             trace w1 ++ Spawn "wt" term (detached_in ws) :: rest) ∧
  ∃ events, trace (launchTool env tool ws w0).2 = trace w0 ++ events ∧
            Forall (spawns_only "wt") events.
Proof.
  intros Hload Hin Hterm term.
  assert (requiresAdmin tool = None) as Hadmin.
  { apply loadTools_no_requiresAdmin in Hload.
    rewrite Forall_forall in Hload. by apply Hload. }
  assert (∀ target, launch_command tool ws target = ("wt", term)) as Hcmd.
  { intros target. unfold launch_command. by rewrite Hterm, Hadmin. }
  assert (∀ e, Forall (spawns_only "wt") (recovery env tool ws e)) as Hrec.
  { intros e. unfold recovery, fallback_events. rewrite Hterm.
    destruct (spawn env _ _ _); by repeat constructor. }
  split; [|split; [done|split]].
  - intros t target Ht Ha. unfold dispatch. by rewrite Ht, Ha.
  - intros target w1 Htarget.
    rewrite (launchTool_run _ _ _ _ _ _ Htarget), Hcmd. simpl.
    destruct (spawn env "wt" term (detached_in ws)); simpl; eauto.
  - destruct (resolveTarget env tool ws (emitted w0 [launching tool]))
      as [[target|e|e] w1] eqn:Htarget.
    + assert (∃ found, w1 = emitted w0 (launching tool :: found) ∧
                       Forall (spawns_only "wt") found) as (found & -> & Hfound).
      { rewrite resolveTarget_run in Htarget.
        repeat match type of Htarget with
               | match ?x with _ => _ end = _ => destruct x
               | (if ?x then _ else _) = _ => destruct x
               end; try done; injection Htarget as _ <-;
          rewrite ?emitted_emitted; eexists; (split; [done|]);
          by repeat constructor. }
      rewrite (launchTool_run _ _ _ _ _ _ Htarget), Hcmd. simpl.
      destruct (spawn env "wt" term (detached_in ws)); simpl;
        rewrite <- app_assoc; (eexists; split; [done|]);
        (constructor; [done|]); (apply Forall_app; split; [done|]);
        try (by repeat constructor).
      constructor; [done|]. apply Hrec.
    + assert (w1 = emitted w0 [launching tool]) as ->.
      { rewrite resolveTarget_run in Htarget.
        repeat match type of Htarget with
               | match ?x with _ => _ end = _ => destruct x
               | (if ?x then _ else _) = _ => destruct x
               end; try done; by injection Htarget as _ <-. }
      rewrite (launchTool_no_target _ _ _ _ _ _ Htarget). simpl.
      rewrite <- app_assoc. eexists. split; [done|].
      constructor; [done|]. apply Hrec.
    + assert (w1 = emitted w0 [launching tool]) as ->.
      { rewrite resolveTarget_run in Htarget.
        repeat match type of Htarget with
               | match ?x with _ => _ end = _ => destruct x
               | (if ?x then _ else _) = _ => destruct x
               end; try done; by injection Htarget as _ <-. }
      exists [launching tool]. split; [|by repeat constructor].
      unfold launchTool. unfold mbind at 1, M_bind at 1. rewrite emit_run.
      fold (launching tool). unfold try_catch, mbind, M_bind. by rewrite Htarget.
Qed.

Lemma launchTool_admin_without_gsudo_witness :
  loadTools env_demo world_app = (Ok DEFAULT_TOOLS, world_app) ∧
  claude_default ∈ DEFAULT_TOOLS ∧
  supportsAdmin claude_default = true ∧
  launchTool env_demo claude_default "D:/code/my-app" world_app =
    (Ok (), emitted world_app
              [launching claude_default;
               Spawn "wt" ["-d"; "D:/code/my-app"; "pwsh"; "-NoExit"; "-Command"; "claude"]
                 (detached_in "D:/code/my-app");
               Unref; Sleep 500; LogSuccess "Claude Code launched"]) ∧
  ∃ events, trace (launchTool env_demo claude_default "D:/code/my-app" world_app).2 =
              trace world_app ++ events ∧
            Forall (spawns_only "wt") events.
Proof.
  assert (claude_default ∈ DEFAULT_TOOLS) as Hin by (by left).
  destruct (launchTool_admin_without_gsudo env_demo world_app DEFAULT_TOOLS world_app
              claude_default "D:/code/my-app" world_app)
    as (_ & _ & _ & Hevents); [reflexivity|exact Hin|reflexivity|].
  split; [reflexivity|]. split; [exact Hin|]. split; [reflexivity|].
  split; [reflexivity|exact Hevents].
Defined.

(** C5. For a tool that declares patterns, the glob engine is asked for
    the files of the workspace folder that match them, one level deep,
    with absolute paths. When it returns files, the target is the first
    of them, in the order the engine gave (an absolute path is not the
    empty string); when it returns none, the target is the workspace
    folder. A tool that is started directly gets that target as its last
    argument. *)
Theorem launchTool_project_file env tool ws w patterns found :
  projectFilePatterns tool = Some patterns →
  patterns ≠ [] →
  fg env patterns (mkGlobOptions ws true true 1) = Ok found →
  (∀ f, head found = Some f → f ≠ "") →
  let target := default ws (head found) in
  (resolveTarget env tool ws w).1 = Ok target ∧
  (generic_tool tool →
   ∃ before rest,
     trace (launchTool env tool ws w).2 =
     trace w ++ launching tool :: before ++
     Spawn (executable tool)
       ((if truthy_ostring (launchArgs tool)
         then [default "" (launchArgs tool)] else []) ++ [target])
       (detached_in ws) :: rest).
Proof.
  intros Hpat Hne Hfg Habs target.
  assert (∃ before, resolveTarget env tool ws (emitted w [launching tool]) =
                    (Ok target, emitted w (launching tool :: before)))
    as [before Htarget].
  { rewrite resolveTarget_run, Hpat. destruct patterns as [|p ps]; [done|].
    rewrite Hfg. subst target. destruct (head found) as [f|] eqn:Hhead; simpl.
    - unfold truthy_string.
      destruct (String.eqb_spec f "") as [->|_]; [by destruct (Habs "")|].
      simpl. rewrite emitted_emitted. eauto.
    - by exists []. }
  split.
  - rewrite resolveTarget_run, Hpat. destruct patterns as [|p ps]; [done|].
    rewrite Hfg. subst target. destruct (head found) as [f|] eqn:Hhead; simpl; [|done].
    unfold truthy_string.
    by destruct (String.eqb_spec f "") as [->|_]; [destruct (Habs "")|].
  - intros (Hterm & Hexp & Hwt & Hgit).
    rewrite (launchTool_run _ _ _ _ _ _ Htarget).
    assert (launch_command tool ws target =
            (executable tool,
             (if truthy_ostring (launchArgs tool)
              then [default "" (launchArgs tool)] else []) ++ [target])) as ->.
    { unfold launch_command. rewrite Hterm.
      apply String.eqb_neq in Hexp, Hwt, Hgit. by rewrite Hexp, Hwt, Hgit. }
    simpl. exists before.
    destruct (spawn env _ _ _); simpl; rewrite <- app_assoc; simpl; eauto.
Qed.

Lemma launchTool_project_file_witness :
  (resolveTarget env_two_solutions solution_tool "D:/code/app" world_empty).1 =
    Ok "D:/code/app/foo.sln" ∧
  ∃ before rest,
    trace (launchTool env_two_solutions solution_tool "D:/code/app" world_empty).2 =
    launching solution_tool :: before ++
    Spawn "devenv" ["D:/code/app/foo.sln"] (detached_in "D:/code/app") :: rest.
Proof.
  destruct (launchTool_project_file env_two_solutions solution_tool "D:/code/app"
              world_empty ["*.sln"] ["D:/code/app/foo.sln"; "D:/code/app/bar.sln"])
    as [Htarget Hspawn].
  - reflexivity.
  - discriminate.
  - reflexivity.
  - intros f Hf. injection Hf as <-. discriminate.
  - split; [exact Htarget|]. apply Hspawn. by vm_compute.
Defined.

(** C6. The handler of [launchTool] does what the claim says when the
    call of [spawn] itself throws: the failure is reported with the name
    of the tool and the error; for a terminal-mode tool there is then one
    fallback spawn, the terminal emulator opened on the workspace folder
    with a shell and no command, and if that call throws too its failure
    is reported and nothing more is tried; for any other tool there is no
    second spawn; then the prompt. But a command that is not found or may
    not be run does not make [spawn] throw: the runtime reports it as an
    ['error'] event of the child that [spawn] has returned, and
    [spawnDetached] registers no listener for it. For such a failure the
    handler does not run: nothing is reported, no fallback is tried, no
    prompt is shown, and the event ends the process during the pause. *)
Theorem launchTool_spawn_failure env tool ws w target w1 :
  resolveTarget env tool ws (emitted w [launching tool]) = (Ok target, w1) →
  let cmd := (launch_command tool ws target).1 in
  let args := (launch_command tool ws target).2 in
  let spawned := Spawn cmd args (detached_in ws) in
  let bare := ["-d"; ws; "pwsh"; "-NoExit"] in
  let prompt := [AskText "Press Enter to continue..."] in
  (∀ e, spawn env cmd args (detached_in ws) = ErrorEvent e →
     launchTool env tool ws w =
     (Uncaught e, emitted w1 [spawned; Unref; Sleep 500])) ∧
  (∀ e, spawn env cmd args (detached_in ws) = SpawnThrows e →
     let failed :=
       [spawned;
        LogError ("Failed to launch " +:+ tool_name tool +:+ ": " +:+ error_string e)] in
     (launchInTerminal tool = true →
      launchTool env tool ws w =
      (match spawn env "wt" bare (detached_in ws) with
       | ErrorEvent e2 => Uncaught e2
       | _ => Ok ()
       end,
       emitted w1
         (failed ++
          [LogWarn "Trying fallback launch..."; Spawn "wt" bare (detached_in ws)] ++
          match spawn env "wt" bare (detached_in ws) with
          | SpawnThrows err2 => [LogError ("Fallback failed: " +:+ error_string err2)]
          | _ => [Unref]
          end ++ prompt))) ∧
     (launchInTerminal tool = false →
      launchTool env tool ws w = (Ok (), emitted w1 (failed ++ prompt)))).
Proof.
  intros Htarget cmd args spawned bare prompt.
  rewrite (launchTool_run _ _ _ _ _ _ Htarget). fold cmd args.
  split; intros e ->; [done|].
  unfold recovery, recovery_end, fallback_events. fold bare.
  split; intros ->; [|done].
  simpl. by destruct (spawn env "wt" bare (detached_in ws)).
Qed.

Lemma launchTool_spawn_failure_witness :
  let dir := "D:/code/app" in
  let tool := Spawn "wt" ["-d"; dir; "pwsh"; "-NoExit"; "-Command"; "claude"]
                (detached_in dir) in
  let bare := Spawn "wt" ["-d"; dir; "pwsh"; "-NoExit"] (detached_in dir) in
  launchTool env_no_wt claude_default dir world_empty =
    (Uncaught (mkError "Error" "spawn wt ENOENT"),
     emitted world_empty [launching claude_default; tool; Unref; Sleep 500]) ∧
  launchTool env_tool_throws claude_default dir world_empty =
    (Ok (), emitted world_empty
              [launching claude_default; tool;
               LogError "Failed to launch Claude Code: TypeError: cannot spawn the tool";
               LogWarn "Trying fallback launch..."; bare; Unref;
               AskText "Press Enter to continue..."]) ∧
  launchTool env_spawn_throws claude_default dir world_empty =
    (Ok (), emitted world_empty
              [launching claude_default; tool;
               LogError "Failed to launch Claude Code: TypeError: cannot spawn wt";
               LogWarn "Trying fallback launch..."; bare;
               LogError "Fallback failed: TypeError: cannot spawn wt";
               AskText "Press Enter to continue..."]) ∧
  launchTool env_spawn_throws idea_tool dir world_empty =
    (Ok (), emitted world_empty
              [launching idea_tool;
               Spawn "idea" [dir] (detached_in dir);
               LogError "Failed to launch IntelliJ IDEA: TypeError: cannot spawn idea";
               AskText "Press Enter to continue..."]).
Proof.
  intros dir tool bare. split; [|split; [|split]].
  - destruct (launchTool_spawn_failure env_no_wt claude_default dir world_empty dir
                (emitted world_empty [launching claude_default])) as [Hevent _];
      [reflexivity|].
    apply (Hevent (mkError "Error" "spawn wt ENOENT")). reflexivity.
  - destruct (launchTool_spawn_failure env_tool_throws claude_default dir world_empty dir
                (emitted world_empty [launching claude_default])) as [_ Hthrows];
      [reflexivity|].
    destruct (Hthrows (mkError "TypeError" "cannot spawn the tool")) as [Hterm _];
      [reflexivity|].
    apply Hterm. reflexivity.
  - destruct (launchTool_spawn_failure env_spawn_throws claude_default dir world_empty dir
                (emitted world_empty [launching claude_default])) as [_ Hthrows];
      [reflexivity|].
    destruct (Hthrows (mkError "TypeError" "cannot spawn wt")) as [Hterm _];
      [reflexivity|].
    apply Hterm. reflexivity.
  - destruct (launchTool_spawn_failure env_spawn_throws idea_tool dir world_empty dir
                (emitted world_empty [launching idea_tool])) as [_ Hthrows];
      [reflexivity|].
    destruct (Hthrows (mkError "TypeError" "cannot spawn idea")) as [_ Hother];
      [reflexivity|].
    apply Hother. reflexivity.
Defined.

(** ** Quick launch: the project *)

Lemma startsWith_refl s : startsWith s s = true.
Proof. induction s as [|c s IH]; simpl; [done|]. by rewrite Ascii.eqb_refl. Qed.

Lemma includes_refl s : includes s s = true.
Proof. destruct s; simpl; [done|]. by rewrite Ascii.eqb_refl, startsWith_refl. Qed.

(** An exact match is a containment: the first test of the predicate of
    [quickLaunch] adds nothing to the second. *)
Lemma exact_or_includes s q : String.eqb s q || includes s q = includes s q.
Proof.
  destruct (String.eqb_spec s q) as [->|_]; [|done].
  by rewrite includes_refl.
Qed.

Lemma find_ext {A} (f g : A → bool) (l : list A) :
  (∀ x, f x = g x) → List.find f l = List.find g l.
Proof. intros Hfg. induction l as [|x l IH]; simpl; [done|]. by rewrite Hfg, IH. Qed.

Lemma quickLaunch_not_found env projects q toolId w :
  quickLaunch_project projects q = None →
  quickLaunch env projects q toolId w =
  (Ok (), emitted w [LogError ("Project not found: " +:+ q);
                     LogInfo ("Available: " +:+ join_with ", " (name <$> projects))]).
Proof.
  intros Hnone. unfold quickLaunch. rewrite Hnone.
  unfold mbind, M_bind. by rewrite !emit_run, emitted_emitted.
Qed.

(** C2, as amended. [quickLaunch] resolves the query to the first project,
    in stored order, whose name contains the query, case-insensitively; a
    name equal to the query is such a name and has no priority over an
    earlier name that contains the query. When no name is equal to the
    query this is the resolution of the specification. With the projects
    "Alpha" and "beta-app" and the query "BETA" the project is "beta-app".
    When no name contains the query, the error and the list of the names
    are printed and nothing is launched. *)
Theorem quickLaunch_first_containing projects q :
  quickLaunch_project projects q =
    List.find (λ p, includes (toLowerCase (name p)) (toLowerCase q)) projects ∧
  (List.find (λ p, String.eqb (toLowerCase (name p)) (toLowerCase q)) projects = None →
   quickLaunch_project projects q = quickLaunch_project_spec projects q) ∧
  (∀ alpha beta, name alpha = "Alpha" → name beta = "beta-app" →
     quickLaunch_project [alpha; beta] "BETA" = Some beta) ∧
  (∀ env toolId w,
     List.find (λ p, includes (toLowerCase (name p)) (toLowerCase q)) projects = None →
     quickLaunch env projects q toolId w =
     (Ok (), emitted w [LogError ("Project not found: " +:+ q);
                        LogInfo ("Available: " +:+ join_with ", " (name <$> projects))])).
Proof.
  assert (quickLaunch_project projects q =
          List.find (λ p, includes (toLowerCase (name p)) (toLowerCase q)) projects)
    as Hfind.
  { apply find_ext. intros p. apply exact_or_includes. }
  split; [done|]. split; [|split].
  - intros Hnone. unfold quickLaunch_project_spec. by rewrite Hnone.
  - intros alpha beta Ha Hb. unfold quickLaunch_project. simpl. by rewrite Ha, Hb.
  - intros env toolId w Hnone. apply quickLaunch_not_found. by rewrite Hfind.
Qed.

Lemma quickLaunch_first_containing_witness :
  let alpha := mkProject "Alpha" "D:/code/alpha" [mkWorkspace "Root" "."] None in
  let beta := mkProject "beta-app" "D:/code/beta" [mkWorkspace "Root" "."] None in
  quickLaunch_project [alpha; beta] "BETA" = Some beta ∧
  quickLaunch_project [alpha; beta] "BETA" = quickLaunch_project_spec [alpha; beta] "BETA" ∧
  quickLaunch env_demo [alpha; beta] "gamma" None world_empty =
    (Ok (), emitted world_empty [LogError "Project not found: gamma";
                                 LogInfo "Available: Alpha, beta-app"]).
Proof.
  intros alpha beta.
  destruct (quickLaunch_first_containing [alpha; beta] "BETA") as (_ & Hspec & Hbeta & _).
  destruct (quickLaunch_first_containing [alpha; beta] "gamma") as (_ & _ & _ & Hnone).
  split; [by apply Hbeta|]. split; [by apply Hspec|].
  by apply Hnone.
Defined.

(** C2 as it is stated fails: with the projects "beta-app" and "beta", in
    this order, and the query "beta", the name "beta" is an exact match,
    and [quickLaunch] takes "beta-app", the first name that contains the
    query. *)
Lemma quickLaunch_exact_not_first :
  let app := mkProject "beta-app" "D:/code/beta-app" [mkWorkspace "Root" "."] None in
  let beta := mkProject "beta" "D:/code/beta" [mkWorkspace "Root" "."] None in
  quickLaunch_project_spec [app; beta] "beta" = Some beta ∧
  quickLaunch_project [app; beta] "beta" = Some app ∧
  quickLaunch_project [app; beta] "beta" ≠ quickLaunch_project_spec [app; beta] "beta".
Proof. by vm_compute. Qed.

(** ** What a run adds to the trace *)

Section Emits.

Context (P : Event → Prop).

Lemma emits_ret {A} (a : A) : emits P (mret a).
Proof. intros w. exists []. by rewrite app_nil_r. Qed.

Lemma emits_throw {A} e : emits P (throw e : M A).
Proof. intros w. exists []. by rewrite app_nil_r. Qed.

Lemma emits_uncaught {A} e : emits P (uncaught e : M A).
Proof. intros w. exists []. by rewrite app_nil_r. Qed.

Lemma emits_emit e : P e → emits P (emit e).
Proof. intros He w. exists [e]. split; [done|]. by constructor. Qed.

Lemma emits_bind {A B} (m : M A) (f : A → M B) :
  emits P m → (∀ a, emits P (f a)) → emits P (m ≫= f).
Proof.
  intros Hm Hf w. unfold mbind, M_bind.
  destruct (Hm w) as (es1 & Htr1 & HP1). destruct (m w) as [[a|e|e] w1]; simpl in *.
  - destruct (Hf a w1) as (es2 & Htr2 & HP2). exists (es1 ++ es2).
    rewrite Htr2, Htr1, app_assoc. split; [done|]. by apply Forall_app.
  - eauto.
  - eauto.
Qed.

Lemma emits_try_catch {A} (body : M A) (handler : Error → M A) :
  emits P body → (∀ e, emits P (handler e)) → emits P (try_catch body handler).
Proof.
  intros Hm Hf w. unfold try_catch.
  destruct (Hm w) as (es1 & Htr1 & HP1). destruct (body w) as [[a|e|e] w1]; simpl in *.
  - eauto.
  - destruct (Hf e w1) as (es2 & Htr2 & HP2). exists (es1 ++ es2).
    rewrite Htr2, Htr1, app_assoc. split; [done|]. by apply Forall_app.
  - eauto.
Qed.

(** A run that leaves the trace as it is. *)
Lemma emits_silent {A} (m : M A) : (∀ w, trace (m w).2 = trace w) → emits P m.
Proof. intros Hm w. exists []. by rewrite app_nil_r. Qed.

Lemma emits_for_each {A} (l : list A) (body : A → M unit) :
  (∀ x, emits P (body x)) → emits P (for_each l body).
Proof.
  intros Hbody. induction l as [|x l IH]; simpl.
  - apply emits_ret.
  - apply emits_bind; auto.
Qed.

End Emits.

(** One step of a proof that a program only emits events that hold
    trivially: through binds, handlers and branches, down to the events. *)
Ltac emits_step :=
  lazymatch goal with
  | |- emits _ (match ?x with _ => _ end) => destruct x
  | |- emits _ (_ ≫= _) => apply emits_bind
  | |- emits _ (try_catch _ _) => apply emits_try_catch
  | |- emits _ (mret _) => apply emits_ret
  | |- emits _ (throw _) => apply emits_throw
  | |- emits _ (uncaught _) => apply emits_uncaught
  | |- emits _ (emit _) => apply emits_emit; exact I
  | |- emits _ get_fs => apply emits_silent; done
  | |- emits _ _ => fail
  | |- _ => intros ?
  end.

(** The launcher asks no multiselect. *)
Lemma launchTool_emits env tool ws : emits offers_enabled (launchTool env tool ws).
Proof.
  unfold launchTool, resolveTarget, findProjectFile, dispatch, spawnDetached, deliver.
  repeat emits_step.
Qed.

(** Loading the catalog prints at most an error. *)
Lemma loadTools_emits (P : Event → Prop) env :
  (∀ msg, P (LogError msg)) → emits P (loadTools env).
Proof.
  intros HP. unfold loadTools, existsSync, readFileSync, JSON_parse, parse.
  repeat first [ apply emits_emit, HP | emits_step ].
Qed.

Lemma addRecent_emits (P : Event → Prop) env name : emits P (addRecent env name).
Proof. apply emits_silent. intros w. apply addRecent_frame. Qed.

(** The enabled tools of a catalog are enabled. *)
Lemma enabled_filter (loaded : list Tool) :
  Forall (λ t, enabled t = true) (filter (λ t, enabled t = true) loaded).
Proof. apply Forall_forall. by intros t [? _]%list_elem_of_filter. Qed.

Lemma launchFlow_launch_emits env proj wsPath wsName answer :
  emits offers_enabled (launchFlow_launch env proj wsPath wsName answer).
Proof.
  unfold launchFlow_launch.
  apply emits_bind; [by apply loadTools_emits|]. intros loaded.
  destruct (_ =? _)%nat; [by apply emits_emit|].
  apply emits_bind; [apply emits_emit, enabled_filter|]. intros _.
  destruct answer as [ticked|]; [|apply emits_ret].
  apply emits_bind; [apply addRecent_emits|]. intros _.
  apply emits_for_each. intros tool. apply launchTool_emits.
Qed.

(** ** Quick launch: the tool *)

Lemma quickLaunch_tool_enabled loaded toolId t :
  quickLaunch_tool (filter (λ t, enabled t = true) loaded) toolId = Some (Some t) →
  enabled t = true ∧ t ∈ loaded.
Proof.
  unfold quickLaunch_tool. intros Hsel.
  apply (list_elem_of_filter (λ t, enabled t = true)).
  destruct (truthy_ostring toolId).
  - destruct (List.find _ _) as [t'|] eqn:Hfind; [|done].
    injection Hsel as ->. apply find_some in Hfind as [Hin _].
    by apply list_elem_of_In.
  - injection Hsel as Hhead. by apply head_Some_elem_of.
Qed.

Lemma quickLaunch_run env projects q toolId w project loaded w1 t :
  quickLaunch_project projects q = Some project →
  existsSync (path project) w = (Ok true, w) →
  loadTools env w = (Ok loaded, w1) →
  quickLaunch_tool (filter (λ t, enabled t = true) loaded) toolId = Some (Some t) →
  quickLaunch env projects q toolId w =
  (addRecent env (name project);; launchTool env t (path project)) w1.
Proof.
  intros Hproj Hex Hload Htool. unfold quickLaunch. rewrite Hproj.
  unfold mbind at 1, M_bind at 1. rewrite Hex. simpl.
  unfold mbind at 1, M_bind at 1. rewrite Hload, Htool.
  reflexivity.
Qed.

(** Every run of [quickLaunch] either hands an enabled tool of the catalog
    to the launcher or starts no process. *)
Lemma quickLaunch_cases env projects q toolId w :
  (∃ project loaded w1 t,
     loadTools env w = (Ok loaded, w1) ∧ t ∈ loaded ∧ enabled t = true ∧
     quickLaunch env projects q toolId w =
     (addRecent env (name project);; launchTool env t (path project)) w1) ∨
  (∃ events, trace (quickLaunch env projects q toolId w).2 = trace w ++ events ∧
             Forall no_spawn events).
Proof.
  remember (quickLaunch env projects q toolId w) as r eqn:Hr.
  unfold quickLaunch in Hr.
  destruct (quickLaunch_project projects q) as [project|] eqn:Hproj.
  2:{ right. subst r. eexists. split; [simpl; by rewrite <- app_assoc|].
      by repeat constructor. }
  unfold mbind at 1, M_bind at 1 in Hr.
  replace (existsSync (path project) w)
    with (Ok (is_dir (path project) (fs w) || is_file (path project) (fs w)), w)
    in Hr by reflexivity.
  destruct (is_dir (path project) (fs w) || is_file (path project) (fs w));
    simpl in Hr.
  2:{ right. subst r. eexists. split; [reflexivity|]. by repeat constructor. }
  unfold mbind at 1, M_bind at 1 in Hr.
  destruct (loadTools_emits no_spawn env (λ _, I) w) as (evs & Htrace & Hevs).
  destruct (loadTools_default env w) as (loaded & w1 & Hload & _).
  rewrite Hload in *. simpl in Htrace.
  destruct (quickLaunch_tool _ toolId) as [[t|]|] eqn:Htool.
  - left. destruct (quickLaunch_tool_enabled _ _ _ Htool) as [Hen Hin].
    by exists project, loaded, w1, t.
  - right. subst r. unfold mbind, M_bind.
    destruct (addRecent_frame env (name project) w1) as [_ Hsame].
    destruct (addRecent env (name project) w1) as [[[]|e|e] w2]; simpl in *;
      rewrite Hsame, Htrace; eauto.
  - right. subst r. simpl. rewrite Htrace, <- !app_assoc. eexists. split; [done|].
    apply Forall_app. split; [done|]. by repeat constructor.
Qed.

(** C8. The multiselect of the launch flow offers enabled tools only,
    whatever the catalog and whatever the user answers. The tool that
    [quickLaunch] hands to the launcher is an enabled tool of the catalog,
    and a run of [quickLaunch] that hands none starts no process.
    Without a tool argument, [quickLaunch] takes the first enabled tool
    in the order of the catalog: every tool before it is disabled. *)
Theorem disabled_tool_never_launched env :
  (∀ proj wsPath wsName answer,
     emits offers_enabled (launchFlow_launch env proj wsPath wsName answer)) ∧
  (∀ projects q toolId w,
     (∃ project loaded w1 t,
        loadTools env w = (Ok loaded, w1) ∧ t ∈ loaded ∧ enabled t = true ∧
        quickLaunch env projects q toolId w =
        (addRecent env (name project);; launchTool env t (path project)) w1) ∨
     (∃ events, trace (quickLaunch env projects q toolId w).2 = trace w ++ events ∧
                Forall no_spawn events)) ∧
  (∀ projects q toolId w project loaded w1 t,
     quickLaunch_project projects q = Some project →
     existsSync (path project) w = (Ok true, w) →
     loadTools env w = (Ok loaded, w1) →
     quickLaunch_tool (filter (λ t, enabled t = true) loaded) toolId = Some (Some t) →
     enabled t = true ∧ t ∈ loaded ∧
     quickLaunch env projects q toolId w =
     (addRecent env (name project);; launchTool env t (path project)) w1) ∧
  (∀ loaded toolId,
     truthy_ostring toolId = false →
     quickLaunch_tool (filter (λ t, enabled t = true) loaded) toolId =
       Some (head (filter (λ t, enabled t = true) loaded)) ∧
     ∀ t, head (filter (λ t, enabled t = true) loaded) = Some t →
          enabled t = true ∧
          ∃ before after, loaded = before ++ t :: after ∧
                          Forall (λ z, enabled z = false) before).
Proof.
  split; [apply launchFlow_launch_emits|].
  split; [apply quickLaunch_cases|]. split.
  - intros projects q toolId w project loaded w1 t Hproj Hex Hload Htool.
    destruct (quickLaunch_tool_enabled _ _ _ Htool) as [Hen Hin].
    split; [done|]. split; [done|]. by eapply quickLaunch_run.
  - intros loaded toolId Hno. unfold quickLaunch_tool. rewrite Hno.
    split; [done|]. intros t Hhead.
    split.
    + apply head_Some_elem_of in Hhead. by apply list_elem_of_filter in Hhead as [? _].
    + apply head_filter_Some in Hhead as (before & after & -> & Hbefore).
      exists before, after. split; [done|].
      eapply Forall_impl; [exact Hbefore|]. simpl. intros z Hz.
      by destruct (enabled z).
Qed.

(** ** Managing the workspaces of a project *)

Arguments ws_menu_options : simpl never.
Arguments quoted : simpl never.

Lemma round_back env pidx w project :
  mem w !! pidx = Some project →
  manageWorkspaces_round env pidx AnsBack w =
  (Ok false, emitted w [AskSelect ("Workspaces in " +:+ quoted (name project))
                          (ws_menu_options (workspaces project))]).
Proof. intros Hp. unfold manageWorkspaces_round. run. by rewrite Hp. Qed.

Lemma round_delete_root env pidx w project ws confirmed :
  mem w !! pidx = Some project →
  workspaces project !! 0 = Some ws →
  manageWorkspaces_round env pidx (AnsEdit 0 (WaDelete confirmed)) w =
  (Ok true, emitted w (ws_menus project ws ++
                       [LogWarn "Cannot delete the Root workspace"])).
Proof.
  intros Hp Hws. unfold manageWorkspaces_round. run. rewrite Hp. simpl.
  rewrite Hws. simpl. unfold emitted. simpl. by rewrite <- !app_assoc.
Qed.

Lemma round_delete env pidx w project ws i :
  mem w !! pidx = Some project →
  workspaces project !! i = Some ws →
  i ≠ 0 →
  let all' := alter (set_workspaces (delete i)) pidx (mem w) in
  let asked :=
    mkWorld (fs w) all'
      (trace w ++ ws_menus project ws ++
       [AskConfirm ("Delete workspace " +:+ quoted (ws_name ws) +:+ "?")]) in
  manageWorkspaces_round env pidx (AnsEdit i (WaDelete (Some true))) w =
  match saveProjects env all' asked with
  | (Ok _, saved) =>
      (Ok true,
       emitted saved [LogSuccess ("Workspace " +:+ quoted (ws_name ws) +:+ " deleted")])
  | (Throw e, failed) => (Throw e, failed)
  | (Uncaught e, failed) => (Uncaught e, failed)
  end.
Proof.
  intros Hp Hws Hi all' asked. unfold manageWorkspaces_round, update_workspaces. run.
  rewrite Hp. simpl. rewrite Hws. simpl.
  destruct i as [|i]; [done|]. simpl.
  subst asked all'. rewrite <- !app_assoc. simpl.
  by destruct (saveProjects env _ _) as [[[]|e|e] w2].
Qed.

(** The array in memory after [saveProjects] and what follows it. *)
Ltac after_save :=
  match goal with
  | |- context [saveProjects ?env ?ps ?w0] =>
      let Hmem := fresh "Hmem" in
      pose proof (saveProjects_frame env ps w0) as [Hmem _];
      destruct (saveProjects env ps w0) as [[[]|?|?] ?]; simpl in *; exact Hmem
  end.

(** Out of its range, [alter] and [delete] leave a list as it is. *)
Lemma alter_out_of_range {A} (f : A → A) i (l : list A) :
  l !! i = None → alter f i l = l.
Proof.
  revert i. induction l as [|x l IH]; intros [|i]; simpl; try done.
  intros Hi. f_equal. by apply IH.
Qed.

Lemma delete_out_of_range {A} i (l : list A) : l !! i = None → delete i l = l.
Proof.
  revert i. induction l as [|x l IH]; intros [|i]; simpl; try done.
  intros Hi. f_equal. by apply IH.
Qed.

Lemma alter_set_workspaces_same f pidx (l : list Project) :
  (∀ p, l !! pidx = Some p → f (workspaces p) = workspaces p) →
  alter (set_workspaces f) pidx l = l.
Proof.
  intros Hf. rewrite <- (list_alter_id (λ p, p) l pidx) at 2 by done.
  apply list_alter_ext; [|done]. intros p Hp.
  unfold set_workspaces. rewrite (Hf p Hp). by destruct p.
Qed.

(** The array in memory after an edit, [saveProjects] and what follows
    it. *)
Ltac edit_saved :=
  match goal with
  | |- context [saveProjects ?env ?ps ?w0] =>
      let Hmem := fresh "Hmem" in
      pose proof (saveProjects_frame env ps w0) as [Hmem _];
      destruct (saveProjects env ps w0) as [[[]|?|?] ?]; simpl in *;
      rewrite Hmem; (apply list_alter_ext; [|done]); intros ? _;
      unfold set_workspaces, ws_edit; simpl;
      repeat match goal with H : truthy_ostring _ = _ |- _ => rewrite H end;
      done
  end.

(** After a round, whether it returned or threw, the array in memory is
    the one before with the workspaces of the project edited as the
    answer asks. *)
Lemma round_exact env pidx a w :
  mem (manageWorkspaces_round env pidx a w).2 =
  alter (set_workspaces (ws_edit a)) pidx (mem w).
Proof.
  unfold manageWorkspaces_round, update_workspaces. run.
  destruct (mem w !! pidx) as [project|] eqn:Hp; simpl.
  2:{ symmetry. apply alter_set_workspaces_same. intros p Hp'. congruence. }
  destruct a as [|wsName wsPath|i action]; simpl.
  - symmetry. by apply alter_set_workspaces_same.
  - destruct wsPath as [wsPath|]; simpl;
      destruct (truthy_ostring wsName) eqn:Htruthy; simpl;
      try (symmetry; apply alter_set_workspaces_same; intros p _; simpl;
           by rewrite ?Htruthy).
    edit_saved.
  - destruct (workspaces project !! i) as [ws|] eqn:Hws; simpl.
    2:{ symmetry. apply alter_set_workspaces_same. intros p Hp'.
        assert (p = project) as -> by congruence.
        destruct action as [|newName|[newPath|]|[[|]|]]; simpl; try done.
        - destruct (truthy_ostring newName); [|done].
          by apply alter_out_of_range.
        - by apply alter_out_of_range.
        - destruct i; [done|]. by apply delete_out_of_range. }
    destruct action as [|newName|[newPath|]|confirmed]; simpl.
    + symmetry. by apply alter_set_workspaces_same.
    + destruct (truthy_ostring newName) eqn:Htruthy; simpl;
        [edit_saved|].
      symmetry. apply alter_set_workspaces_same. intros p _. simpl.
      by rewrite Htruthy.
    + edit_saved.
    + symmetry. by apply alter_set_workspaces_same.
    + destruct i as [|i]; simpl.
      { symmetry. apply alter_set_workspaces_same. intros p _. simpl.
        by destruct confirmed as [[|]|]. }
      destruct confirmed as [[|]|]; simpl;
        [edit_saved|symmetry; by apply alter_set_workspaces_same..].
Qed.

(** A round tells the loop to go on unless the user leaves the menu. *)
Lemma round_goes_on env pidx a w c w' :
  manageWorkspaces_round env pidx a w = (Ok c, w') →
  c = match a with AnsBack => false | _ => true end.
Proof.
  unfold manageWorkspaces_round, update_workspaces. run.
  destruct (mem w !! pidx) as [project|]; simpl; [|done].
  destruct a as [|wsName wsPath|i action]; simpl; [by intros [= <- _]| |].
  - destruct (truthy_ostring wsName); simpl; [|by intros [= <- _]].
    destruct wsPath as [wsPath|]; simpl; [|by intros [= <- _]].
    by destruct (saveProjects env _ _) as [[[]|?|?] ?]; simpl; intros [= <- _].
  - destruct (workspaces project !! i) as [ws|]; simpl; [|done].
    destruct action as [|newName|[newPath|]|confirmed]; simpl;
      try (by intros [= <- _]).
    + destruct (truthy_ostring newName); simpl; [|by intros [= <- _]].
      by destruct (saveProjects env _ _) as [[[]|?|?] ?]; simpl; intros [= <- _].
    + by destruct (saveProjects env _ _) as [[[]|?|?] ?]; simpl; intros [= <- _].
    + destruct i as [|i]; simpl; [by intros [= <- _]|].
      destruct confirmed as [[|]|]; simpl; try (by intros [= <- _]).
      by destruct (saveProjects env _ _) as [[[]|?|?] ?]; simpl; intros [= <- _].
Qed.

Lemma set_workspaces_set_workspaces f g p :
  set_workspaces g (set_workspaces f p) = set_workspaces (g ∘ f) p.
Proof. by destruct p. Qed.

(** The same over all the rounds of [manageWorkspaces]: the edits of the
    answers that were reached, in their order. *)
Lemma manageWorkspaces_exact env pidx answers w :
  ∃ done,
    done `prefix_of` before_back answers ∧
    ((manageWorkspaces env pidx answers w).1 = Ok () → done = before_back answers) ∧
    mem (manageWorkspaces env pidx answers w).2 =
    alter (set_workspaces (λ ws, foldl (λ l a, ws_edit a l) ws done)) pidx (mem w).
Proof.
  revert w. induction answers as [|a rest IH]; intros w; simpl.
  - exists []. split; [done|]. split; [done|].
    unfold mbind, M_bind. pose proof (round_exact env pidx AnsBack w) as Hmem.
    destruct (manageWorkspaces_round env pidx AnsBack w) as [[c|e|e] w1];
      simpl in *; exact Hmem.
  - pose proof (round_exact env pidx a w) as Hmem.
    pose proof (round_goes_on env pidx a w) as Hon.
    unfold mbind, M_bind.
    destruct (manageWorkspaces_round env pidx a w) as [[c|e|e] w1]; simpl in *.
    + specialize (Hon c w1 eq_refl). destruct a as [|wsName wsPath|i action]; subst c.
      * exists []. split; [done|]. split; [done|]. exact Hmem.
      * destruct (IH w1) as (done & Hpre & Hok & Hrest).
        exists (AnsAdd wsName wsPath :: done).
        split; [by apply prefix_cons|]. split; [intros H; by rewrite (Hok H)|].
        rewrite Hrest, Hmem, list_alter_alter_eq. apply list_alter_ext; [|done].
        intros p _. apply set_workspaces_set_workspaces.
      * destruct (IH w1) as (done & Hpre & Hok & Hrest).
        exists (AnsEdit i action :: done).
        split; [by apply prefix_cons|]. split; [intros H; by rewrite (Hok H)|].
        rewrite Hrest, Hmem, list_alter_alter_eq. apply list_alter_ext; [|done].
        intros p _. apply set_workspaces_set_workspaces.
    + destruct a as [|wsName wsPath|i action].
      * exists []. split; [done|]. split; [done|]. exact Hmem.
      * exists [AnsAdd wsName wsPath].
        split; [apply prefix_cons, prefix_nil|]. split; [done|]. exact Hmem.
      * exists [AnsEdit i action].
        split; [apply prefix_cons, prefix_nil|]. split; [done|]. exact Hmem.
    + destruct a as [|wsName wsPath|i action].
      * exists []. split; [done|]. split; [done|]. exact Hmem.
      * exists [AnsAdd wsName wsPath].
        split; [apply prefix_cons, prefix_nil|]. split; [done|]. exact Hmem.
      * exists [AnsEdit i action].
        split; [apply prefix_cons, prefix_nil|]. split; [done|]. exact Hmem.
Qed.

(** No edit removes the entry at index 0: it stays first, and changes
    only as [root_edit] says. *)
Lemma head_ws_edit a ws root :
  head ws = Some root → head (ws_edit a ws) = Some (root_edit root a).
Proof.
  destruct ws as [|r ws]; [done|]. intros [= ->].
  destruct a as [|wsName [wsPath|]|i action]; simpl; try done.
  - by destruct (truthy_ostring wsName).
  - destruct action as [|newName|[newPath|]|[[|]|]]; destruct i; simpl; try done;
      by destruct (truthy_ostring newName).
Qed.

Lemma head_ws_edits done ws root :
  head ws = Some root →
  head (foldl (λ l a, ws_edit a l) ws done) = Some (foldl root_edit root done).
Proof.
  revert ws root. induction done as [|a done IH]; intros ws root Hroot; simpl; [done|].
  apply IH. by apply head_ws_edit.
Qed.

(** C9, as amended. In the menu of the workspaces of a project: a delete
    of the workspace at index 0 is refused with a warning and changes
    neither the workspaces nor the files, whatever the user would
    confirm, and the menu goes on. A confirmed delete at another valid
    index removes that entry from the workspaces of the project, the
    entries before it staying where they are and those after it moving
    up by one, and [saveProjects] is called on the result: when it goes
    through, [projects.json] holds the array without the entry. Over any
    sequence of answers, and whether the run ends normally or by an
    exception, the projects in memory are the ones before with, for the
    project of the menu, the edits of the answers that were reached, in
    their order; the other projects are untouched. No edit removes the
    entry at index 0: a project that had workspaces still has some, and
    its entry at index 0 is the one it had, with the name of the last
    rename of index 0 and the path of the last change of path of
    index 0, if there were any. *)
Theorem root_workspace_protected env pidx :
  (∀ w project ws confirmed rest,
     mem w !! pidx = Some project →
     workspaces project !! 0 = Some ws →
     manageWorkspaces env pidx (AnsEdit 0 (WaDelete confirmed) :: rest) w =
     manageWorkspaces env pidx rest
       (emitted w (ws_menus project ws ++
                   [LogWarn "Cannot delete the Root workspace"]))) ∧
  (∀ w project ws i r w',
     mem w !! pidx = Some project →
     workspaces project !! i = Some ws →
     i ≠ 0 →
     manageWorkspaces env pidx [AnsEdit i (WaDelete (Some true))] w = (r, w') →
     let after := delete i (workspaces project) in
     mem w' = alter (set_workspaces (delete i)) pidx (mem w) ∧
     mem w' !! pidx = Some (set_workspaces (delete i) project) ∧
     length after + 1 = length (workspaces project) ∧
     (∀ k, (k < i)%nat → after !! k = workspaces project !! k) ∧
     (∀ k, (i ≤ k)%nat → after !! k = workspaces project !! S k) ∧
     (r = Ok () →
      files (fs w') !! CONFIG_PATH env =
        Some (JsonText (JArr (Project_to_json <$> mem w')))) ∧
     (config_dir_free env (fs w) → CONFIG_PATH env ∉ dirs (fs w) → r = Ok ())) ∧
  (∀ answers w,
     let r := (manageWorkspaces env pidx answers w).1 in
     let w' := (manageWorkspaces env pidx answers w).2 in
     ∃ done,
       done `prefix_of` before_back answers ∧
       (r = Ok () → done = before_back answers) ∧
       mem w' =
         alter (set_workspaces (λ ws, foldl (λ l a, ws_edit a l) ws done)) pidx (mem w) ∧
       length (mem w') = length (mem w) ∧
       (∀ j, j ≠ pidx → mem w' !! j = mem w !! j) ∧
       (∀ p root, mem w !! pidx = Some p → head (workspaces p) = Some root →
          ∃ p', mem w' !! pidx = Some p' ∧
                workspaces p' ≠ [] ∧
                head (workspaces p') = Some (foldl root_edit root done))).
Proof.
  split.
  { intros w project ws confirmed rest Hp Hws. simpl. unfold mbind, M_bind.
    by rewrite (round_delete_root env pidx w project ws confirmed Hp Hws). }
  split.
  2:{ intros answers w r w'.
      destruct (manageWorkspaces_exact env pidx answers w) as (done & Hpre & Hok & Hmem).
      exists done. fold w' in Hmem. fold r in Hok.
      split; [done|]. split; [done|]. split; [done|].
      rewrite Hmem. split; [by rewrite length_alter|].
      split; [intros j Hj; by rewrite list_lookup_alter_ne|].
      intros p root Hp Hroot. eexists. rewrite list_lookup_alter_eq, Hp. simpl.
      split; [done|]. simpl.
      pose proof (head_ws_edits done (workspaces p) root Hroot) as Hhead.
      split; [|done]. intros Hnil. by rewrite Hnil in Hhead. }
  intros w project ws i r w' Hp Hws Hi Hrun after.
  simpl in Hrun. unfold mbind, M_bind in Hrun.
  rewrite (round_delete env pidx w project ws i Hp Hws Hi) in Hrun.
  set (all' := alter (set_workspaces (delete i)) pidx (mem w)) in *.
  set (asked := mkWorld (fs w) all' _) in *.
  pose proof (saveProjects_frame env all' asked) as [Hmem _].
  pose proof (saveProjects_written env all' asked) as Hwritten.
  pose proof (saveProjects_succeeds env all' asked) as Hsucceeds.
  assert (all' !! pidx = Some (set_workspaces (delete i) project)) as Hp'.
  { unfold all'. by rewrite list_lookup_alter_eq, Hp. }
  assert (∀ saved, saveProjects env all' asked = (Ok (), saved) →
            r = Ok () ∧ mem w' = all' ∧ fs w' = fs saved) as Hdone.
  { intros saved Hsave. rewrite Hsave in Hrun, Hmem. simpl in Hmem.
    rewrite (round_back env pidx _ (set_workspaces (delete i) project)) in Hrun
      by (simpl; by rewrite Hmem).
    by injection Hrun as <- <-. }
  assert (mem w' = all') as Hmem'.
  { destruct (saveProjects env all' asked) as [[[]|e|e] w2] eqn:Hsave.
    - by destruct (Hdone w2 eq_refl) as (_ & ? & _).
    - by injection Hrun as <- <-.
    - by injection Hrun as <- <-. }
  split; [done|].
  split; [by rewrite Hmem'|].
  split.
  { subst after. rewrite length_delete by eauto.
    apply lookup_lt_Some in Hws. lia. }
  split; [intros k Hk; by apply list_lookup_delete_lt|].
  split; [intros k Hk; by apply list_lookup_delete_ge|].
  split.
  - intros ->. rewrite Hmem'.
    destruct (saveProjects env all' asked) as [[[]|e|e] w2] eqn:Hsave; [|done|done].
    destruct (Hdone w2 eq_refl) as (_ & _ & ->). by apply Hwritten.
  - intros Hfree Hdir. destruct (Hsucceeds Hfree Hdir) as [w2 Hw2].
    by destruct (Hdone w2 Hw2) as (? & _).
Qed.

Lemma root_workspace_protected_witness :
  (∃ w', manageWorkspaces env_demo 0 [AnsEdit 0 (WaDelete (Some true))] world_app =
           (Ok (), w') ∧
         mem w' = [app_project] ∧ fs w' = fs world_app) ∧
  (∃ w', manageWorkspaces env_demo 0 [AnsEdit 1 (WaDelete (Some true))] world_app =
           (Ok (), w') ∧
         mem w' = [mkProject "My App" "D:/code/my-app"
                     [mkWorkspace "Root" "."; mkWorkspace "Backend" "apps/api"] None] ∧
         files (fs w') !! CONFIG_PATH env_demo =
           Some (JsonText (JArr (Project_to_json <$> mem w')))) ∧
  (let answers :=
     [AnsEdit 0 (WaDelete (Some true)); AnsEdit 2 (WaDelete (Some true));
      AnsEdit 0 (WaRename (Some "Main")); AnsAdd (Some "Docs") (Some "docs");
      AnsEdit 0 (WaPath (Some "")); AnsEdit 1 (WaDelete (Some true));
      AnsEdit 0 (WaDelete (Some true)); AnsBack; AnsEdit 0 (WaRename (Some "Late"))] in
   (manageWorkspaces env_demo 0 answers world_app).1 = Ok () ∧
   mem (manageWorkspaces env_demo 0 answers world_app).2 =
     [mkProject "My App" "D:/code/my-app"
        [mkWorkspace "Main" "."; mkWorkspace "Docs" "docs"] None]).
Proof.
  destruct (root_workspace_protected env_demo 0) as (Hroot & Hother & Hall).
  split; [|split].
  - rewrite (Hroot world_app app_project (mkWorkspace "Root" ".")) by done.
    eexists. split; [reflexivity|]. done.
  - destruct (manageWorkspaces env_demo 0 [AnsEdit 1 (WaDelete (Some true))]
                world_app) as [r w'] eqn:Hrun.
    destruct (Hother world_app app_project (mkWorkspace "Frontend" "apps/web") 1 r w')
      as (Hmem & _ & _ & _ & _ & Hfile & Hok); [done|done|lia|done|].
    assert (r = Ok ()) as ->.
    { apply Hok; [reflexivity|]. simpl. by vm_compute. }
    exists w'. split; [done|]. split; [by rewrite Hmem|]. by apply Hfile.
  - intros answers.
    destruct (Hall answers world_app) as (done & _ & Hok & Hmem & _).
    assert ((manageWorkspaces env_demo 0 answers world_app).1 = Ok ()) as Hrun
      by (by vm_compute).
    split; [exact Hrun|]. rewrite Hmem, (Hok Hrun). reflexivity.
Defined.

(** C9 as it is stated fails: a change of path (or a rename) aimed at
    index 0 is carried out like any other, so the entry at index 0 is not
    preserved across all the operations on the workspaces. *)
Lemma root_workspace_not_preserved :
  let after := mem (manageWorkspaces env_demo 0 [AnsEdit 0 (WaPath (Some "src")); AnsBack]
                      world_app).2 in
  head (workspaces app_project) = Some (mkWorkspace "Root" ".") ∧
  (∃ p', after !! 0 = Some p' ∧ head (workspaces p') = Some (mkWorkspace "Root" "src")) ∧
  ¬ root_preserved_spec (mem world_app) after.
Proof.
  intros after. split; [reflexivity|].
  assert (after = [mkProject "My App" "D:/code/my-app"
                     [mkWorkspace "Root" "src"; mkWorkspace "Frontend" "apps/web";
                      mkWorkspace "Backend" "apps/api"] None]) as ->
    by (by vm_compute).
  split; [by eexists|].
  intros Hspec. destruct (Hspec 0 app_project eq_refl) as (p' & Hp' & _ & Hhead).
  injection Hp' as <-. discriminate Hhead.
Qed.

Lemma disabled_tool_never_launched_witness :
  emits offers_enabled
    (launchFlow_launch env_demo app_project "D:/code/my-app" "Root" (Some [0; 2])) ∧
  quickLaunch env_demo [app_project] "my" None world_app =
    (addRecent env_demo "My App";; launchTool env_demo claude_default "D:/code/my-app")
      world_app ∧
  quickLaunch env_demo [app_project] "my" None world_first_disabled =
    (addRecent env_demo "My App";; launchTool env_demo idea_tool "D:/code/my-app")
      world_first_disabled.
Proof.
  destruct (disabled_tool_never_launched env_demo) as (Hflow & _ & Hquick & Hdefault).
  split; [apply Hflow|]. split.
  - apply (Hquick [app_project] "my" None world_app app_project DEFAULT_TOOLS);
      by vm_compute.
  - destruct (Hdefault [mkTool "vs" "Visual Studio" "devenv" None None false false
                          false None None None; idea_tool] None) as [Htool _];
      [reflexivity|].
    apply (Hquick [app_project] "my" None world_first_disabled app_project
             [mkTool "vs" "Visual Studio" "devenv" None None false false false None
                None None; idea_tool]);
      [by vm_compute|by vm_compute|by vm_compute|].
    rewrite Htool. by vm_compute.
Defined.

(** * Further properties of the embedded code *)

(** ** Config store: settings and tools round trips *)

Lemma SettingsSchema_to_json s : SettingsSchema (Some (Settings_to_json s)) = Some s.
Proof. by destruct s. Qed.

Lemma loadSettings_of_file env w v s :
  files (fs w) !! SETTINGS_PATH env = Some (JsonText v) →
  SettingsSchema (Some v) = Some s →
  loadSettings env w = (Ok s, w).
Proof.
  intros Hf Hs. unfold loadSettings. run. rewrite Hf. simpl.
  rewrite orb_true_r. simpl. by rewrite Hf, Hs.
Qed.

(** Whenever [saveSettings] has written, [loadSettings] returns the
    settings that were saved and leaves the world as it is; the save goes
    through when the config directory can be used and [settings.json] is
    not a directory. *)
Theorem saveSettings_loadSettings env s w :
  (∀ w', saveSettings env s w = (Ok (), w') → loadSettings env w' = (Ok s, w')) ∧
  (config_dir_free env (fs w) → SETTINGS_PATH env ∉ dirs (fs w) →
   ∃ w', saveSettings env s w = (Ok (), w')).
Proof.
  unfold saveSettings.
  destruct (save_run env "settings.json" (JSON_stringify (Settings_to_json s)) w)
    as (d & Hsub & Hsame & Hrun & Hfree); [done|].
  fold (SETTINGS_PATH env) in *. rewrite Hrun. split.
  - intros w' Hok. destruct (_ && _); [|done]. injection Hok as <-.
    eapply loadSettings_of_file; simpl.
    + by rewrite lookup_insert_eq.
    + apply SettingsSchema_to_json.
  - intros Hf Hd. rewrite bool_decide_true by auto.
    rewrite (bool_decide_true _ Hd). simpl. eauto.
Qed.

Lemma saveSettings_loadSettings_witness :
  ∃ w', saveSettings env_demo settings_demo world_empty = (Ok (), w') ∧
        loadSettings env_demo w' = (Ok settings_demo, w').
Proof.
  destruct (saveSettings_loadSettings env_demo settings_demo world_empty)
    as [Hload Hsave].
  destruct Hsave as [w' Hw'].
  - reflexivity.
  - apply not_elem_of_empty.
  - exists w'. split; [exact Hw'|]. apply Hload, Hw'.
Defined.

Lemma ToolSchema_to_json t : ToolSchema (Some (Tool_to_json t)) = Some (through_schema t).
Proof.
  destruct t as [i n e va uc en lt sa la pf ra].
  unfold ToolSchema, Tool_to_json, through_schema. simpl.
  destruct va, uc, la, ra, pf as [pf|]; simpl;
    rewrite ?(parse_items_fmap z_string JStr pf); try done.
Qed.

Lemma parse_items_fmap2 {A B} (s : Schema B) (f : A → json) (g : A → B) (l : list A) :
  (∀ x, s (Some (f x)) = Some (g x)) → parse_items s (f <$> l) = Some (g <$> l).
Proof.
  intros Hs. induction l as [|x l IH]; csimpl; [done|].
  by rewrite Hs, IH.
Qed.

Lemma through_schema_id ts :
  Forall (λ t, requiresAdmin t = None) ts → through_schema <$> ts = ts.
Proof.
  induction 1 as [|t ts Ht _ IH]; csimpl; [done|].
  rewrite IH. f_equal. destruct t. simpl in Ht. by subst.
Qed.

(** Whenever [saveTools] has written a catalog that is not empty,
    [loadTools] returns it, tool by tool and in the same order, with the
    fields of [ToolSchema] as they were; a property that the schema does
    not declare ([requiresAdmin]) does not come back. *)
Theorem saveTools_loadTools env ts w w' :
  ts ≠ [] →
  saveTools env ts w = (Ok (), w') →
  loadTools env w' = (Ok (through_schema <$> ts), w') ∧
  (Forall (λ t, requiresAdmin t = None) ts → loadTools env w' = (Ok ts, w')).
Proof.
  intros Hne. unfold saveTools.
  destruct (save_run env "tools.json" (JSON_stringify (JArr (Tool_to_json <$> ts))) w)
    as (d & Hsub & Hsame & Hrun & Hfree); [done|].
  fold (TOOLS_PATH env) in *. rewrite Hrun.
  destruct (_ && _); [|done]. intros [= <-].
  assert (loadTools env
            (mkWorld (mkFS d (<[TOOLS_PATH env := JSON_stringify (JArr (Tool_to_json <$> ts))]>
                                (files (fs w)))) (mem w) (trace w)) =
          (Ok (through_schema <$> ts),
           mkWorld (mkFS d (<[TOOLS_PATH env := JSON_stringify (JArr (Tool_to_json <$> ts))]>
                                (files (fs w)))) (mem w) (trace w))) as Hload.
  { rewrite (loadTools_of_file env _ (JArr (Tool_to_json <$> ts))
               (through_schema <$> ts)).
    - by destruct ts.
    - simpl. by rewrite lookup_insert_eq.
    - apply (parse_items_fmap2 ToolSchema), ToolSchema_to_json. }
  split; [done|]. intros Hall. by rewrite through_schema_id in Hload.
Qed.

Lemma saveTools_loadTools_witness :
  ∃ w', saveTools env_demo [idea_tool; claude_admin] world_empty = (Ok (), w') ∧
        loadTools env_demo w' = (Ok [idea_tool; claude_plain], w').
Proof.
  eexists. split; [by vm_compute|].
  apply (saveTools_loadTools env_demo [idea_tool; claude_admin] world_empty);
    [discriminate|by vm_compute].
Defined.

(** ** Config store: each save writes its own document only *)

Lemma append_inj_r d a b : d +:+ a = d +:+ b → a = b.
Proof. induction d as [|c d IH]; simpl; [done|]. intros [= H]. auto. Qed.

Lemma join_inj d a b : join d a = join d b → a = b.
Proof. unfold join. intros H%append_inj_r. by injection H. Qed.

(** Writing a document of the config directory after [ensureConfigDir]
    changes no other file, and makes no document of the directory a
    directory. *)
Lemma save_frame env n t w :
  dirname_aux n = None →
  let p := join (CONFIG_DIR env) n in
  let w' := ((ensureConfigDir env;; writeFileSync p t) w).2 in
  mem w' = mem w ∧ trace w' = trace w ∧
  (∀ q, q ≠ p → files (fs w') !! q = files (fs w) !! q) ∧
  (∀ m, is_dir (join (CONFIG_DIR env) m) (fs w') = is_dir (join (CONFIG_DIR env) m) (fs w)).
Proof.
  intros Hn p w'. subst w'.
  destruct (ensureConfigDir_run env w) as (d & Hrun & Hsub & Hnew & Hfree & Hsame).
  unfold mbind, M_bind. rewrite Hrun, writeFileSync_run. simpl.
  assert (∀ m, bool_decide (join (CONFIG_DIR env) m ∈ d) =
               bool_decide (join (CONFIG_DIR env) m ∈ dirs (fs w))) as Hdirs.
  { intros m. apply bool_decide_ext. split; [apply Hnew|apply Hsub]. }
  destruct (_ && _); simpl; unfold is_dir; simpl.
  - repeat split; try done. intros q Hq. by rewrite lookup_insert_ne.
  - done.
Qed.

Lemma addRecent_files env name w :
  let w' := (addRecent env name w).2 in
  (∀ q, q ≠ RECENTS_PATH env → files (fs w') !! q = files (fs w) !! q) ∧
  (∀ m, is_dir (join (CONFIG_DIR env) m) (fs w') = is_dir (join (CONFIG_DIR env) m) (fs w)).
Proof.
  intros w'. subst w'.
  destruct (ensureConfigDir_run env w) as (d & Hrun & Hsub & Hnew & Hfree & Hsame).
  unfold addRecent, mbind, M_bind. rewrite Hrun, loadRecents_run. simpl.
  assert (∀ m, bool_decide (join (CONFIG_DIR env) m ∈ d) =
               bool_decide (join (CONFIG_DIR env) m ∈ dirs (fs w))) as Hdirs.
  { intros m. apply bool_decide_ext. split; [apply Hnew|apply Hsub]. }
  destruct (recents_value env _) as [| | | |items|]; unfold is_dir; simpl; try done.
  rewrite writeFileSync_run.
  destruct (_ && _); simpl; [|done].
  split; [|done]. intros q Hq. by rewrite lookup_insert_ne.
Qed.

(** What a loader returns depends on its own document only. *)
Lemma loadProjects_depends env w1 w2 :
  files (fs w1) !! CONFIG_PATH env = files (fs w2) !! CONFIG_PATH env →
  is_dir (CONFIG_PATH env) (fs w1) = is_dir (CONFIG_PATH env) (fs w2) →
  (loadProjects env w1).1 = (loadProjects env w2).1.
Proof.
  intros Hf Hd. unfold loadProjects.
  destruct (files (fs w1) !! CONFIG_PATH env) as [[raw|v]|] eqn:H1; symmetry in Hf;
    run; rewrite ?H1, ?Hf, ?Hd; simpl; rewrite ?orb_true_r, ?orb_false_r; simpl;
    rewrite ?H1, ?Hf; simpl.
  - done.
  - by destruct (ConfigSchema (Some v)).
  - destruct (is_dir _ (fs w2)); simpl; rewrite ?H1, ?Hf; done.
Qed.

Lemma loadTools_depends env w1 w2 :
  files (fs w1) !! TOOLS_PATH env = files (fs w2) !! TOOLS_PATH env →
  is_dir (TOOLS_PATH env) (fs w1) = is_dir (TOOLS_PATH env) (fs w2) →
  (loadTools env w1).1 = (loadTools env w2).1.
Proof.
  intros Hf Hd. unfold loadTools.
  destruct (files (fs w1) !! TOOLS_PATH env) as [[raw|v]|] eqn:H1; symmetry in Hf;
    run; rewrite ?H1, ?Hf, ?Hd; simpl; rewrite ?orb_true_r, ?orb_false_r; simpl;
    rewrite ?H1, ?Hf; simpl.
  - done.
  - by destruct (ToolsConfigSchema (Some v)).
  - destruct (is_dir _ (fs w2)); simpl; rewrite ?H1, ?Hf; done.
Qed.

Lemma loadSettings_depends env w1 w2 :
  files (fs w1) !! SETTINGS_PATH env = files (fs w2) !! SETTINGS_PATH env →
  is_dir (SETTINGS_PATH env) (fs w1) = is_dir (SETTINGS_PATH env) (fs w2) →
  (loadSettings env w1).1 = (loadSettings env w2).1.
Proof.
  intros Hf Hd. unfold loadSettings.
  destruct (files (fs w1) !! SETTINGS_PATH env) as [[raw|v]|] eqn:H1; symmetry in Hf;
    run; rewrite ?H1, ?Hf, ?Hd; simpl; rewrite ?orb_true_r, ?orb_false_r; simpl;
    rewrite ?H1, ?Hf; simpl.
  - done.
  - by destruct (SettingsSchema (Some v)).
  - destruct (is_dir _ (fs w2)); simpl; rewrite ?H1, ?Hf; done.
Qed.

Lemma loadRecents_depends env w1 w2 :
  files (fs w1) !! RECENTS_PATH env = files (fs w2) !! RECENTS_PATH env →
  (loadRecents env w1).1 = (loadRecents env w2).1.
Proof. intros Hf. rewrite !loadRecents_run. unfold recents_value. by rewrite Hf. Qed.

(** The four documents are independent: a save of one of them, whether it
    goes through or throws, changes nothing in what the loaders of the
    other three return. The same holds for [addRecent]. *)
Theorem saves_are_independent env w :
  (∀ ps, let w' := (saveProjects env ps w).2 in
     (loadTools env w').1 = (loadTools env w).1 ∧
     (loadSettings env w').1 = (loadSettings env w).1 ∧
     (loadRecents env w').1 = (loadRecents env w).1) ∧
  (∀ ts, let w' := (saveTools env ts w).2 in
     (loadProjects env w').1 = (loadProjects env w).1 ∧
     (loadSettings env w').1 = (loadSettings env w).1 ∧
     (loadRecents env w').1 = (loadRecents env w).1) ∧
  (∀ s, let w' := (saveSettings env s w).2 in
     (loadProjects env w').1 = (loadProjects env w).1 ∧
     (loadTools env w').1 = (loadTools env w).1 ∧
     (loadRecents env w').1 = (loadRecents env w).1) ∧
  (∀ name, let w' := (addRecent env name w).2 in
     (loadProjects env w').1 = (loadProjects env w).1 ∧
     (loadTools env w').1 = (loadTools env w).1 ∧
     (loadSettings env w').1 = (loadSettings env w).1).
Proof.
  assert (CONFIG_PATH env ≠ TOOLS_PATH env) as Hpt by (by intros ?%join_inj).
  assert (CONFIG_PATH env ≠ RECENTS_PATH env) as Hpr by (by intros ?%join_inj).
  assert (CONFIG_PATH env ≠ SETTINGS_PATH env) as Hps by (by intros ?%join_inj).
  assert (TOOLS_PATH env ≠ RECENTS_PATH env) as Htr by (by intros ?%join_inj).
  assert (TOOLS_PATH env ≠ SETTINGS_PATH env) as Hts by (by intros ?%join_inj).
  assert (RECENTS_PATH env ≠ SETTINGS_PATH env) as Hrs by (by intros ?%join_inj).
  split; [|split; [|split]].
  - intros ps w'. subst w'. unfold saveProjects.
    destruct (save_frame env "projects.json"
                (JSON_stringify (JArr (Project_to_json <$> ps))) w)
      as (_ & _ & Hfiles & Hdirs); [done|].
    fold (CONFIG_PATH env) in *.
    split; [|split].
    + apply loadTools_depends; [by apply Hfiles|apply Hdirs].
    + apply loadSettings_depends; [by apply Hfiles|apply Hdirs].
    + apply loadRecents_depends. by apply Hfiles.
  - intros ts w'. subst w'. unfold saveTools.
    destruct (save_frame env "tools.json"
                (JSON_stringify (JArr (Tool_to_json <$> ts))) w)
      as (_ & _ & Hfiles & Hdirs); [done|].
    fold (TOOLS_PATH env) in *.
    split; [|split].
    + apply loadProjects_depends; [by apply Hfiles|apply Hdirs].
    + apply loadSettings_depends; [by apply Hfiles|apply Hdirs].
    + apply loadRecents_depends. by apply Hfiles.
  - intros s w'. subst w'. unfold saveSettings.
    destruct (save_frame env "settings.json"
                (JSON_stringify (Settings_to_json s)) w)
      as (_ & _ & Hfiles & Hdirs); [done|].
    fold (SETTINGS_PATH env) in *.
    split; [|split].
    + apply loadProjects_depends; [by apply Hfiles|apply Hdirs].
    + apply loadTools_depends; [by apply Hfiles|apply Hdirs].
    + apply loadRecents_depends. by apply Hfiles.
  - intros name w'. subst w'.
    destruct (addRecent_files env name w) as (Hfiles & Hdirs).
    split; [|split].
    + apply loadProjects_depends; [by apply Hfiles|apply Hdirs].
    + apply loadTools_depends; [by apply Hfiles|apply Hdirs].
    + apply loadSettings_depends; [by apply Hfiles|apply Hdirs].
Qed.

(** ** Config store: what the loaders print *)






(** ** Recents: the order of recency *)

Lemma addRecent_ok env name w w' :
  addRecent env name w = (Ok (), w') →
  ∃ items, recents_value env (fs w) = JArr items ∧
           recents_value env (fs w') = JArr (recents_after name items).
Proof.
  destruct (addRecent_run env name w) as (d & _ & _ & _ & _ & ->).
  destruct (recents_value env (fs w)) as [| | | |items|] eqn:Hv; try done.
  destruct (_ && _); [|done]. intros [= <-]. exists items. split; [done|].
  unfold recents_value. simpl. by rewrite lookup_insert_eq.
Qed.

Lemma not_elem_of_sieved name (items : list json) :
  JStr name ∉ filter (λ r, strict_neq_string r name = true) items.
Proof.
  intros [Hne _]%list_elem_of_filter. by rewrite strict_neq_string_self in Hne.
Qed.

(** Two launches in a row, of two different projects: the recents then
    start with the second project, followed by the first; behind them come
    entries that were there before, in the order they had, and neither of
    the two names occurs again. *)
Theorem addRecent_most_recent_first env a b w w1 w2 :
  a ≠ b →
  addRecent env a w = (Ok (), w1) →
  addRecent env b w1 = (Ok (), w2) →
  ∃ items rest,
    loadRecents env w = (Ok (JArr items), w) ∧
    loadRecents env w2 = (Ok (JArr (JStr b :: JStr a :: rest)), w2) ∧
    rest `sublist_of` items ∧
    (JStr a ∉ rest) ∧ (JStr b ∉ rest) ∧
    (length rest ≤ 8)%nat.
Proof.
  intros Hab (items & Hv & Hv1)%addRecent_ok (items1 & Hv1' & Hv2)%addRecent_ok.
  rewrite Hv1 in Hv1'. injection Hv1' as <-.
  exists items,
    (take 8 (filter (λ r, strict_neq_string r b = true)
               (take 9 (filter (λ r, strict_neq_string r a = true) items)))).
  split; [by rewrite loadRecents_run, Hv|].
  split.
  { rewrite loadRecents_run, Hv2. do 2 f_equal.
    rewrite (recents_after_cons a), (recents_after_cons b). f_equal.
    rewrite filter_cons_True; [done|].
    simpl. apply negb_true_iff, String.eqb_neq. done. }
  split.
  { etrans; [apply sublist_take|]. etrans; [apply sublist_filter|].
    etrans; [apply sublist_take|]. apply sublist_filter. }
  split.
  { intros Hin. apply (not_elem_of_sieved a items).
    eapply elem_of_sublist; [exact Hin|].
    etrans; [apply sublist_take|]. etrans; [apply sublist_filter|].
    apply sublist_take. }
  split.
  { intros Hin. eapply (not_elem_of_sieved b).
    eapply elem_of_sublist; [exact Hin|]. apply sublist_take. }
  rewrite length_take. lia.
Qed.

Lemma addRecent_most_recent_first_witness :
  ∃ w1 w2,
    addRecent env_demo "c" world_twelve_recents = (Ok (), w1) ∧
    addRecent env_demo "x" w1 = (Ok (), w2) ∧
    loadRecents env_demo w2 =
      (Ok (JArr (JStr <$> ["x"; "c"; "a"; "b"; "d"; "e"; "f"; "g"; "h"; "i"])), w2).
Proof.
  destruct (addRecent env_demo "c" world_twelve_recents) as [r1 w1] eqn:H1.
  assert (r1 = Ok ()) as -> by (by vm_compute in H1; injection H1 as <- _).
  destruct (addRecent env_demo "x" w1) as [r2 w2] eqn:H2.
  assert (r2 = Ok ()) as ->.
  { vm_compute in H1. injection H1 as <-. vm_compute in H2. by injection H2 as <- _. }
  exists w1, w2. split; [done|]. split; [done|].
  destruct (addRecent_most_recent_first env_demo "c" "x" world_twelve_recents w1 w2)
    as (items & rest & Hload & Hload2 & _); [done|done|done|].
  rewrite Hload2.
  vm_compute in H1. injection H1 as <-. vm_compute in H2. injection H2 as <-.
  vm_compute in Hload2. by vm_compute.
Defined.

(** ** Launcher: the whole run *)



Lemma recovery_spawns env tool ws e :
  Forall (spawns_in ws) (recovery env tool ws e) ∧
  (length (filter (λ e, is_spawn e = true) (recovery env tool ws e)) =
   if launchInTerminal tool then 1 else 0)%nat ∧
  last (recovery env tool ws e) = Some (AskText "Press Enter to continue...") ∧
  (∀ cmd args opts, Spawn cmd args opts ∈ recovery env tool ws e →
     launchInTerminal tool = true ∧ cmd = "wt" ∧ args = ["-d"; ws; "pwsh"; "-NoExit"]).
Proof.
  unfold recovery, fallback_events.
  destruct (launchInTerminal tool); [destruct (spawn env _ _ _)|];
    (split; [by repeat constructor|]); (split; [done|]); (split; [done|]);
    intros cmd args opts Hin; simpl in Hin;
    repeat (apply elem_of_cons in Hin as [Hin|Hin]; [try done; by injection Hin as -> -> _|]);
    by apply elem_of_nil in Hin.
Qed.




(** When the glob engine throws on the patterns of the tool, the tool is
    not started at all, not even a terminal-mode tool, whose command does
    not use the project file: the error is reported with the name of the
    tool, a terminal-mode tool gets the bare fallback terminal, which is
    then the only process of the run, and the prompt waits for Enter. *)
Theorem launchTool_glob_failure env tool ws w patterns e :
  projectFilePatterns tool = Some patterns →
  patterns ≠ [] →
  fg env patterns (mkGlobOptions ws true true 1) = Throw e →
  launchTool env tool ws w =
    (recovery_end env tool ws,
     emitted w (LogInfo ("Launching " +:+ tool_name tool +:+ "...") ::
                recovery env tool ws e)) ∧
  head (recovery env tool ws e) =
    Some (LogError ("Failed to launch " +:+ tool_name tool +:+ ": " +:+
                    error_string e)) ∧
  last (recovery env tool ws e) = Some (AskText "Press Enter to continue...") ∧
  (∀ cmd args opts, Spawn cmd args opts ∈ recovery env tool ws e →
     launchInTerminal tool = true ∧ cmd = "wt" ∧
     args = ["-d"; ws; "pwsh"; "-NoExit"] ∧ opts = detached_in ws).
Proof.
  intros Hpat Hne Hfg.
  assert (resolveTarget env tool ws (emitted w [launching tool]) =
          (Throw e, emitted w [launching tool])) as Htarget.
  { rewrite resolveTarget_run, Hpat. destruct patterns as [|p ps]; [done|].
    by rewrite Hfg. }
  rewrite (launchTool_no_target _ _ _ _ _ _ Htarget), emitted_emitted.
  split; [done|]. split; [done|].
  destruct (recovery_spawns env tool ws e) as (Hrec & _ & Hlast & Hspawn).
  split; [done|].
  intros cmd args opts Hin. destruct (Hspawn cmd args opts Hin) as (? & ? & ?).
  rewrite Forall_forall in Hrec. specialize (Hrec _ Hin). done.
Qed.

Lemma launchTool_glob_failure_witness :
  launchTool env_glob_fails notebook_tool "D:/code/my-app" world_app =
  (Ok (),
   emitted world_app
     [LogInfo "Launching Notebook...";
      LogError "Failed to launch Notebook: Error: EPERM: operation not permitted";
      LogWarn "Trying fallback launch...";
      Spawn "wt" ["-d"; "D:/code/my-app"; "pwsh"; "-NoExit"] (detached_in "D:/code/my-app");
      Unref;
      AskText "Press Enter to continue..."]).
Proof.
  destruct (launchTool_glob_failure env_glob_fails notebook_tool "D:/code/my-app"
              world_app ["*.nb"] (mkError "Error" "EPERM: operation not permitted"))
    as (Hrun & _); [done|done|done|].
  rewrite Hrun. reflexivity.
Defined.

(** ** Quick launch: the runs that start nothing *)

Lemma loadTools_mem env w : mem (loadTools env w).2 = mem w.
Proof.
  unfold loadTools.
  load_cases w (TOOLS_PATH env) Hf; try done.
  - by destruct (ToolsConfigSchema (Some v)).
  - destruct (is_dir _ _) eqn:Hd; simpl; rewrite ?Hf, ?Hd; done.
Qed.

Lemma quickLaunch_resolved env projects q toolId w project loaded w1 tool :
  quickLaunch_project projects q = Some project →
  existsSync (path project) w = (Ok true, w) →
  loadTools env w = (Ok loaded, w1) →
  quickLaunch_tool (filter (λ t, enabled t = true) loaded) toolId = Some tool →
  quickLaunch env projects q toolId w =
  (addRecent env (name project);;
   match tool with
   | Some t => launchTool env t (path project)
   | None => throw (mkError "TypeError"
                      "Cannot read properties of undefined (reading 'name')")
   end) w1.
Proof.
  intros Hproj Hex Hload Htool. unfold quickLaunch. rewrite Hproj.
  unfold mbind at 1, M_bind at 1. rewrite Hex. simpl.
  unfold mbind at 1, M_bind at 1. rewrite Hload, Htool.
  reflexivity.
Qed.

(** [loadRecents] applies no schema, and [addRecent] filters what it
    returns: when [recents.json] holds JSON that is no array, every quick
    launch whose project and tool resolve throws a [TypeError] before
    anything is started, and no file is written. *)
Theorem quickLaunch_blocked_by_recents env projects q toolId w project loaded w1 tool :
  quickLaunch_project projects q = Some project →
  existsSync (path project) w = (Ok true, w) →
  loadTools env w = (Ok loaded, w1) →
  quickLaunch_tool (filter (λ t, enabled t = true) loaded) toolId = Some tool →
  (∀ items, recents_value env (fs w) ≠ JArr items) →
  ∃ w2, quickLaunch env projects q toolId w = (Throw filter_not_a_function, w2) ∧
        files (fs w2) = files (fs w) ∧ mem w2 = mem w ∧ trace w2 = trace w1.
Proof.
  intros Hproj Hex Hload Htool Hrec.
  rewrite (quickLaunch_resolved env projects q toolId w project loaded w1 tool) by done.
  destruct (loadTools_default env w) as (ts & w1' & Hload' & Hfs & _).
  rewrite Hload in Hload'. injection Hload' as <- <-.
  assert (mem w1 = mem w) as Hmem.
  { pose proof (loadTools_mem env w) as Hmem. by rewrite Hload in Hmem. }
  destruct (addRecent_run env (name project) w1) as (d & _ & _ & _ & _ & Hrun).
  unfold mbind, M_bind. rewrite Hrun. rewrite Hfs.
  destruct (recents_value env (fs w)) as [| | | |items|] eqn:Hv;
    try (eexists; split; [reflexivity|]; simpl; by rewrite ?Hfs, ?Hmem).
  by destruct (Hrec items).
Qed.

Lemma quickLaunch_blocked_by_recents_witness :
  ∃ w2, quickLaunch env_demo [app_project] "my app" (Some "claude") world_recents_number =
          (Throw filter_not_a_function, w2) ∧
        files (fs w2) = files (fs world_recents_number) ∧
        mem w2 = mem world_recents_number ∧ trace w2 = [].
Proof.
  apply (quickLaunch_blocked_by_recents env_demo [app_project] "my app" (Some "claude")
           world_recents_number app_project DEFAULT_TOOLS world_recents_number
           (Some claude_default)).
  - reflexivity.
  - by vm_compute.
  - by vm_compute.
  - by vm_compute.
  - intros items. by vm_compute.
Defined.

Lemma filter_none_enabled (loaded : list Tool) :
  Forall (λ t, enabled t = false) loaded →
  filter (λ t, enabled t = true) loaded = [].
Proof.
  induction 1 as [|t l Ht _ IH]; [done|].
  rewrite filter_cons_False by (by rewrite Ht). done.
Qed.

(** A catalog where every tool is disabled. With a tool argument,
    [quickLaunch] reports that the tool is not found, lists nothing as
    available and touches nothing. Without one it takes [tools[0]], which
    is [undefined]: the project is recorded as recent first, then the
    launcher throws a [TypeError] on the name of the tool, before it
    prints or starts anything. *)
Theorem quickLaunch_no_enabled_tool env projects q toolId w project loaded w1 :
  quickLaunch_project projects q = Some project →
  existsSync (path project) w = (Ok true, w) →
  loadTools env w = (Ok loaded, w1) →
  Forall (λ t, enabled t = false) loaded →
  (truthy_ostring toolId = true →
   quickLaunch env projects q toolId w =
   (Ok (), emitted w1 [LogError ("Tool not found: " +:+ default "" toolId);
                       LogInfo ("Available: " +:+ "")])) ∧
  (truthy_ostring toolId = false →
   ∃ e w2, quickLaunch env projects q toolId w = (Throw e, w2) ∧
     mem w2 = mem w1 ∧ trace w2 = trace w1 ∧
     ∀ w', addRecent env (name project) w1 = (Ok (), w') →
           w2 = w' ∧ e = undefined_read "name" ∧
           ∃ items, files (fs w2) !! RECENTS_PATH env =
                    Some (JsonText (JArr (JStr (name project) :: items)))).
Proof.
  intros Hproj Hex Hload Hnone. apply filter_none_enabled in Hnone as Hfilter.
  split; intros Htool.
  - unfold quickLaunch. rewrite Hproj.
    unfold mbind at 1, M_bind at 1. rewrite Hex. simpl.
    unfold mbind at 1, M_bind at 1. rewrite Hload, Hfilter.
    unfold quickLaunch_tool. rewrite Htool. simpl.
    unfold mbind, M_bind. by rewrite !emit_run, emitted_emitted.
  - rewrite (quickLaunch_resolved env projects q toolId w project loaded w1 None); try done.
    2:{ unfold quickLaunch_tool. by rewrite Htool, Hfilter. }
    destruct (addRecent_frame env (name project) w1) as [Hmem Htrace].
    unfold mbind, M_bind.
    destruct (addRecent env (name project) w1) as [[[]|e|e] w2] eqn:Hadd; simpl in *.
    + exists (undefined_read "name"), w2. split; [done|]. split; [done|]. split; [done|].
      intros w' [= <-]. split; [done|]. split; [done|].
      apply addRecent_ok in Hadd as (items & _ & Hv).
      rewrite recents_after_cons in Hv. unfold recents_value in Hv.
      destruct (files (fs w2) !! RECENTS_PATH env) as [[raw|v]|]; try done.
      subst v. by eexists.
    + exists e, w2. done.
    + exfalso. destruct (addRecent_run env (name project) w1) as (d & _ & _ & _ & _ & Hrun).
      rewrite Hrun in Hadd.
      destruct (recents_value env (fs w1)); try done; by destruct (_ && _).
Qed.

Lemma quickLaunch_no_enabled_tool_witness :
  quickLaunch env_demo [app_project] "my" (Some "vs") world_all_disabled =
    (Ok (), emitted world_all_disabled [LogError "Tool not found: vs";
                                        LogInfo "Available: "]) ∧
  ∃ w2, quickLaunch env_demo [app_project] "my" None world_all_disabled =
          (Throw (undefined_read "name"), w2) ∧
        trace w2 = [] ∧
        files (fs w2) !! RECENTS_PATH env_demo = Some (JsonText (JArr [JStr "My App"])).
Proof.
  destruct (quickLaunch_no_enabled_tool env_demo [app_project] "my" (Some "vs")
              world_all_disabled app_project
              [mkTool "vs" "Visual Studio" "devenv" None None false false false None
                 None None] world_all_disabled) as [Hgiven _];
    [reflexivity|by vm_compute|by vm_compute|by repeat constructor|].
  destruct (quickLaunch_no_enabled_tool env_demo [app_project] "my" None
              world_all_disabled app_project
              [mkTool "vs" "Visual Studio" "devenv" None None false false false None
                 None None] world_all_disabled) as [_ Hnone];
    [reflexivity|by vm_compute|by vm_compute|by repeat constructor|].
  split; [by apply Hgiven|].
  destruct Hnone as (e & w2 & Hrun & _ & Htrace & Hadd); [reflexivity|].
  destruct (addRecent env_demo "My App" world_all_disabled) as [r w'] eqn:Hw'.
  assert (r = Ok ()) as -> by (by vm_compute in Hw'; injection Hw' as <- _).
  destruct (Hadd w' Hw') as (-> & -> & items & Hfile).
  exists w'. split; [done|]. split; [done|].
  vm_compute in Hw'. injection Hw' as <-. by vm_compute.
Defined.

(** ** Managing the workspaces: what is saved and what is kept *)

(** After [saveProjects] and the line that reports the edit. *)
Ltac saved_after :=
  match goal with
  | H : context [saveProjects ?env ?ps ?w0] |- _ =>
      let Hmem := fresh "Hmem" in
      let Hsave := fresh "Hsave" in
      pose proof (saveProjects_frame env ps w0) as [Hmem _];
      destruct (saveProjects env ps w0) as [[[]|?|?] ?] eqn:Hsave; simpl in *;
      [apply saveProjects_written in Hsave|done|done]
  end.

Lemma round_saved env pidx a w c w' :
  manageWorkspaces_round env pidx a w = (Ok c, w') →
  (fs w' = fs w ∧ mem w' = mem w) ∨ saved env w'.
Proof.
  unfold manageWorkspaces_round, update_workspaces, saved. run.
  destruct (mem w !! pidx) as [project|]; simpl; [|done].
  destruct a as [|wsName wsPath|i action]; simpl.
  - intros [= _ <-]. by left.
  - destruct (truthy_ostring wsName); simpl; [|intros [= _ <-]; by left].
    destruct wsPath as [wsPath|]; simpl; [|intros [= _ <-]; by left].
    intros Hrun. right. saved_after. injection Hrun as _ <-. simpl. congruence.
  - destruct (workspaces project !! i) as [ws|]; simpl; [|done].
    destruct action as [|newName|newPath|confirmed]; simpl.
    + intros [= _ <-]. by left.
    + destruct (truthy_ostring newName); simpl; [|intros [= _ <-]; by left].
      intros Hrun. right. saved_after. injection Hrun as _ <-. simpl. congruence.
    + destruct newPath as [newPath|]; simpl; [|intros [= _ <-]; by left].
      intros Hrun. right. saved_after. injection Hrun as _ <-. simpl. congruence.
    + destruct i as [|i]; simpl; [intros [= _ <-]; by left|].
      destruct confirmed as [[|]|]; simpl; try (intros [= _ <-]; by left).
      intros Hrun. right. saved_after. injection Hrun as _ <-. simpl. congruence.
Qed.

Lemma manageWorkspaces_saved_or_same env pidx answers w w' :
  manageWorkspaces env pidx answers w = (Ok (), w') →
  (fs w' = fs w ∧ mem w' = mem w) ∨ saved env w'.
Proof.
  revert w. induction answers as [|a rest IH]; intros w; simpl.
  - unfold mbind, M_bind.
    destruct (manageWorkspaces_round env pidx AnsBack w) as [[c|e|e] w1] eqn:Hround;
      [|done|done].
    intros [= <-]. by apply round_saved in Hround.
  - unfold mbind, M_bind.
    destruct (manageWorkspaces_round env pidx a w) as [[c|e|e] w1] eqn:Hround;
      [|done|done].
    apply round_saved in Hround.
    destruct c.
    + intros [[Hfs Hmem]|Hsaved]%IH; [|by right].
      destruct Hround as [[Hfs1 Hmem1]|Hsaved1]; [left; split; congruence|].
      right. unfold saved in *. congruence.
    + intros [= <-]. done.
Qed.

(** Every edit of the workspaces is written to [projects.json] before the
    menu goes on: when [manageWorkspaces] returns, either it has changed
    neither the files nor the projects in memory, or the file holds the
    array in memory. So when the file held the array before, it holds it
    after, and [loadProjects] gives the array back. *)
Theorem manageWorkspaces_saves_edits env pidx answers w w' :
  manageWorkspaces env pidx answers w = (Ok (), w') →
  ((fs w' = fs w ∧ mem w' = mem w) ∨ saved env w') ∧
  (saved env w → saved env w' ∧ loadProjects env w' = (Ok (mem w'), w')).
Proof.
  intros Hrun. apply manageWorkspaces_saved_or_same in Hrun as Hcases.
  split; [done|]. intros Hsaved.
  assert (saved env w') as Hsaved'.
  { destruct Hcases as [[Hfs Hmem]|H]; [|done]. unfold saved in *. congruence. }
  split; [done|].
  eapply loadProjects_of_file; [exact Hsaved'|apply ConfigSchema_to_json].
Qed.

Lemma manageWorkspaces_saves_edits_witness :
  ∃ w', manageWorkspaces env_demo 0
          [AnsAdd (Some "Docs") (Some "docs"); AnsEdit 1 (WaRename (Some "Web"));
           AnsEdit 2 (WaDelete (Some true)); AnsBack] world_app_saved = (Ok (), w') ∧
        saved env_demo w' ∧
        loadProjects env_demo w' =
          (Ok [mkProject "My App" "D:/code/my-app"
                 [mkWorkspace "Root" "."; mkWorkspace "Web" "apps/web";
                  mkWorkspace "Docs" "docs"] None], w').
Proof.
  destruct (manageWorkspaces env_demo 0
              [AnsAdd (Some "Docs") (Some "docs"); AnsEdit 1 (WaRename (Some "Web"));
               AnsEdit 2 (WaDelete (Some true)); AnsBack] world_app_saved)
    as [r w'] eqn:Hrun.
  assert (r = Ok ()) as -> by (by vm_compute in Hrun; injection Hrun as <- _).
  destruct (manageWorkspaces_saves_edits env_demo 0 _ _ _ Hrun) as [_ Hsaved].
  destruct Hsaved as [Hsaved Hload]; [reflexivity|].
  exists w'. split; [done|]. split; [done|]. rewrite Hload.
  vm_compute in Hrun. injection Hrun as <-. reflexivity.
Defined.


(** ** The order of the projects in the menu *)

Lemma sort_insert_Permutation {A} (compare : A → A → Z) x (l : list A) :
  sort_insert compare x l ≡ₚ x :: l.
Proof.
  induction l as [|y l IH]; simpl; [done|].
  destruct (compare x y <=? 0)%Z; [done|].
  rewrite IH. apply Permutation_swap.
Qed.

Lemma array_sort_Permutation {A} (compare : A → A → Z) (l : list A) :
  array_sort compare l ≡ₚ l.
Proof.
  induction l as [|x l IH]; simpl; [done|].
  by rewrite sort_insert_Permutation, IH.
Qed.

Lemma StronglySorted_lookup {A} (R : A → A → Prop) (l : list A) i j a b :
  StronglySorted R l → (i < j)%nat → l !! i = Some a → l !! j = Some b → R a b.
Proof.
  intros Hl. revert i j. induction Hl as [|x l Hl IH Hx]; intros i j Hij Ha Hb.
  - done.
  - destruct j as [|j]; [lia|]. simpl in Hb. destruct i as [|i]; simpl in Ha.
    + injection Ha as ->. rewrite Forall_forall in Hx. apply Hx.
      by eapply list_elem_of_lookup_2.
    + apply (IH i j); [lia|done|done].
Qed.

Lemma sort_insert_sorted {A} (compare : A → A → Z) x (l : list A) :
  (∀ a b, (compare a b ≤ 0)%Z ∨ (compare b a ≤ 0)%Z) →
  (∀ a b c, (compare a b ≤ 0)%Z → (compare b c ≤ 0)%Z → (compare a c ≤ 0)%Z) →
  StronglySorted (λ a b, (compare a b ≤ 0)%Z) l →
  StronglySorted (λ a b, (compare a b ≤ 0)%Z) (sort_insert compare x l).
Proof.
  intros Htotal Htrans. induction 1 as [|y l Hl IH Hy]; simpl.
  - by repeat constructor.
  - destruct (Z.leb_spec (compare x y) 0) as [Hxy|Hxy].
    + constructor; [by constructor|]. constructor; [done|].
      eapply Forall_impl; [exact Hy|]. intros z Hz. by eapply Htrans.
    + constructor; [done|].
      rewrite sort_insert_Permutation. constructor; [|done].
      destruct (Htotal x y); [lia|done].
Qed.

Lemma array_sort_sorted {A} (compare : A → A → Z) (l : list A) :
  (∀ a b, (compare a b ≤ 0)%Z ∨ (compare b a ≤ 0)%Z) →
  (∀ a b c, (compare a b ≤ 0)%Z → (compare b c ≤ 0)%Z → (compare a c ≤ 0)%Z) →
  StronglySorted (λ a b, (compare a b ≤ 0)%Z) (array_sort compare l).
Proof.
  intros Htotal Htrans. induction l as [|x l IH]; simpl; [constructor|].
  by apply sort_insert_sorted.
Qed.

Lemma indexOf_from_spec i l x :
  ((x ∉ l) ∧ indexOf_from i l x = (-1)%Z) ∨
  ((x ∈ l) ∧ (i ≤ indexOf_from i l x)%Z).
Proof.
  revert i. induction l as [|y l IH]; intros i; simpl.
  - left. split; [apply not_elem_of_nil|done].
  - destruct (String.eqb_spec y x) as [->|Hne].
    + right. split; [by left|lia].
    + destruct (IH (i + 1)%Z) as [[Hnot ->]|[Hin Hle]].
      * left. split; [|done]. apply not_elem_of_cons. split; [done|]. done.
      * right. split; [by right|lia].
Qed.

Lemma indexOf_recent l x :
  ((x ∉ l) ∧ indexOf l x = (-1)%Z) ∨ ((x ∈ l) ∧ (0 ≤ indexOf l x)%Z).
Proof. apply indexOf_from_spec. Qed.

(** The comparator of [sortProjects] is a consistent order when
    [localeCompare] is. *)
Lemma compareProjects_consistent localeCompare recents :
  consistent localeCompare →
  (∀ a b, (compareProjects localeCompare recents a b ≤ 0)%Z ∨
          (compareProjects localeCompare recents b a ≤ 0)%Z) ∧
  (∀ a b c, (compareProjects localeCompare recents a b ≤ 0)%Z →
            (compareProjects localeCompare recents b c ≤ 0)%Z →
            (compareProjects localeCompare recents a c ≤ 0)%Z).
Proof.
  intros [Htotal Htrans]. unfold compareProjects. split.
  - intros a b.
    destruct (indexOf_recent recents (name a)) as [[_ Ha]|[_ Ha]],
             (indexOf_recent recents (name b)) as [[_ Hb]|[_ Hb]];
      repeat match goal with
             | |- context [(?x =? -1)%Z] => destruct (Z.eqb_spec x (-1)%Z)
             end; simpl; try lia; auto.
  - intros a b c.
    destruct (indexOf_recent recents (name a)) as [[_ Ha]|[_ Ha]],
             (indexOf_recent recents (name b)) as [[_ Hb]|[_ Hb]],
             (indexOf_recent recents (name c)) as [[_ Hc]|[_ Hc]];
      repeat match goal with
             | |- context [(?x =? -1)%Z] => destruct (Z.eqb_spec x (-1)%Z)
             end; simpl; try lia; eauto.
Qed.

(** [sortProjects] returns the projects it was given, in another order.
    When [localeCompare] is a consistent order, the projects that are
    named in the recents come first, the more recent before the less
    recent, and the others follow in the order of [localeCompare] on
    their lower-cased names. *)
Theorem sortProjects_recents_first localeCompare projects recents :
  let sorted := sortProjects localeCompare projects recents in
  sorted ≡ₚ projects ∧
  (consistent localeCompare →
   ∀ i j a b, (i < j)%nat → sorted !! i = Some a → sorted !! j = Some b →
     (name b ∈ recents →
        (name a ∈ recents) ∧
        (indexOf recents (name a) ≤ indexOf recents (name b))%Z) ∧
     (name a ∉ recents →
        (name b ∉ recents) ∧
        (localeCompare (toLowerCase (name a)) (toLowerCase (name b)) ≤ 0)%Z)).
Proof.
  intros sorted. split; [apply array_sort_Permutation|].
  intros Hcons i j a b Hij Ha Hb.
  destruct (compareProjects_consistent localeCompare recents Hcons) as [Htotal Htrans].
  assert (StronglySorted (λ a b, (compareProjects localeCompare recents a b ≤ 0)%Z)
            sorted) as Hsorted by (by apply array_sort_sorted).
  assert (compareProjects localeCompare recents a b ≤ 0)%Z as Hab.
  { exact (StronglySorted_lookup _ sorted i j a b Hsorted Hij Ha Hb). }
  unfold compareProjects in Hab.
  destruct (indexOf_recent recents (name a)) as [[Hna Hia]|[Hna Hia]],
           (indexOf_recent recents (name b)) as [[Hnb Hib]|[Hnb Hib]];
    repeat match type of Hab with
           | context [(?x =? -1)%Z] => destruct (Z.eqb_spec x (-1)%Z)
           end; simpl in Hab; try lia; split; intros H; try done; split; try done; lia.
Qed.

Lemma sortProjects_recents_first_witness :
  let project n := mkProject n ("D:/code/" +:+ n) [mkWorkspace "Root" "."] None in
  let projects :=
    [project "delta"; project "bb"; project "alpha"; project "c"; project "zeta"] in
  let recents := ["zeta"; "gone"; "alpha"] in
  consistent by_length ∧
  sortProjects by_length projects recents =
    [project "zeta"; project "alpha"; project "c"; project "bb"; project "delta"] ∧
  sortProjects by_length projects recents ≡ₚ projects ∧
  (indexOf recents "zeta" ≤ indexOf recents "alpha")%Z ∧
  (by_length "c" "delta" ≤ 0)%Z.
Proof.
  intros project projects recents.
  assert (consistent by_length) as Hcons.
  { unfold by_length. split; [intros a b|intros a b c]; lia. }
  destruct (sortProjects_recents_first by_length projects recents) as [Hperm Hfirst].
  split; [exact Hcons|]. split; [reflexivity|]. split; [exact Hperm|].
  split.
  - destruct (Hfirst Hcons 0%nat 1%nat (project "zeta") (project "alpha"))
      as [Hrecent _]; [lia|reflexivity|reflexivity|].
    apply Hrecent. by repeat constructor.
  - destruct (Hfirst Hcons 2%nat 4%nat (project "c") (project "delta"))
      as [_ Hother]; [lia|reflexivity|reflexivity|].
    apply Hother. intros Hin.
    repeat (apply elem_of_cons in Hin as [Hin|Hin]; [discriminate Hin|]).
    by apply elem_of_nil in Hin.
Defined.
